(** * The admin inquiries page (src/app/admin/inquiries/page.tsx)

    A shallow embedding of the [AdminInquiries] React component: its
    [useState] cells, the [hasInitialLoaded] ref, the three [useEffect]
    hooks, the asynchronous [fetchInquiries] callback and the CSV export.

    - JavaScript values that come out of [response.json()] are untyped
      ([any] in the source), so they are modelled by a small type of
      run-time values with the property reads and the truthiness test the
      page performs on them.
    - The body of [fetchInquiries] is written in a state monad with
      exceptions and early return, so that [try]/[catch]/[finally],
      [throw] and [return] appear as in the source.
    - Time is discrete: one tick is one millisecond of the browser clock. *)

From Stdlib Require Import ZArith List String Ascii Bool Arith Lia DecimalString DecimalZ.
Import ListNotations.

Local Open Scope string_scope.
Local Open Scope list_scope.

Set Warnings "-register-all".

(* ===================================================================== *)
(** ** Run-time values *)
(* ===================================================================== *)

Module JS.

(** What [JSON.parse] can produce, plus [undefined] for absent
    properties.  Numbers are restricted to integers: page numbers and
    counts are the only numbers the page looks at. *)
Inductive value : Type :=
| VUndefined
| VNull
| VBool (b : bool)
| VNum (n : Z)
| VStr (s : string)
| VArr (elems : list value)
| VObj (fields : list (string * value)).

(** ToBoolean. *)
Definition truthy (v : value) : bool :=
  match v with
  | VUndefined | VNull => false
  | VBool b => b
  | VNum n => negb (n =? 0)%Z
  | VStr s => negb (s =? "")
  | VArr _ | VObj _ => true
  end.

Fixpoint lookup (k : string) (fields : list (string * value)) : value :=
  match fields with
  | [] => VUndefined
  | (k', v) :: rest => if k =? k' then v else lookup k rest
  end.

(** [v.k] for the property names the page reads ([data], [pagination],
    [currentPage], [length]).  [None] is the TypeError raised on [null]
    and [undefined]; primitives and arrays have none of these
    properties except [length] on arrays and strings. *)
Definition getProp (v : value) (k : string) : option value :=
  match v with
  | VUndefined | VNull => None
  | VBool _ | VNum _ => Some VUndefined
  | VStr s =>
      Some (if k =? "length" then VNum (Z.of_nat (String.length s))
            else VUndefined)
  | VArr elems =>
      Some (if k =? "length" then VNum (Z.of_nat (List.length elems))
            else VUndefined)
  | VObj fields => Some (lookup k fields)
  end.

(** [n.toString()] for an integer. *)
Definition numToString (n : Z) : string :=
  NilEmpty.string_of_int (Z.to_int n).

End JS.
Import JS.

(* ===================================================================== *)
(** ** Data model *)
(* ===================================================================== *)

Inductive Status : Type := new | read | replied.

Definition Status_string (s : Status) : string :=
  match s with new => "new" | read => "read" | replied => "replied" end.

Record Inquiry : Type := {
  _id : string;
  name : string;
  email : string;
  company : option string;
  subject : string;
  message : string;
  timestamp : string;
  status : option Status
}.

Record PaginationInfo : Type := {
  currentPage : Z;
  totalPages : Z;
  totalCount : Z;
  hasNextPage : bool;
  hasPreviousPage : bool;
  limit : Z
}.

(** The object literal [{ currentPage, totalPages, totalCount, hasNextPage,
    hasPreviousPage, limit }] a [PaginationInfo] is at run time. *)
Definition PaginationInfo_value (p : PaginationInfo) : value :=
  VObj [ ("currentPage", VNum (currentPage p));
         ("totalPages", VNum (totalPages p));
         ("totalCount", VNum (totalCount p));
         ("hasNextPage", VBool (hasNextPage p));
         ("hasPreviousPage", VBool (hasPreviousPage p));
         ("limit", VNum (limit p)) ].

(** The consistency the data model asks of the two derived booleans. *)
Definition hasPrevious_consistent (p : PaginationInfo) : Prop :=
  hasPreviousPage p = true <-> (currentPage p > 1)%Z.

Definition hasNext_consistent (p : PaginationInfo) : Prop :=
  hasNextPage p = true <-> (currentPage p < totalPages p)%Z.

(* ===================================================================== *)
(** ** Component state *)
(* ===================================================================== *)

(** The [useState] cells.  [inquiries], [pagination] and [currentPageState] (the
    [currentPage] cell) receive values read from the untyped response, so
    they hold run-time values. *)
Record State : Type := {
  inquiries : value;
  loading : bool;
  error : string;
  currentPageState : value;
  searchTerm : string;
  debouncedSearchTerm : string;
  isSearching : bool;
  pagination : value
}.

Definition initialPagination : PaginationInfo :=
  {| currentPage := 1; totalPages := 1; totalCount := 0;
     hasNextPage := false; hasPreviousPage := false; limit := 10 |}.

Definition initialState : State :=
  {| inquiries := VArr [];
     loading := true;
     error := "";
     currentPageState := VNum 1;
     searchTerm := "";
     debouncedSearchTerm := "";
     isSearching := false;
     pagination := PaginationInfo_value initialPagination |}.

(** A request as [fetch] receives it: the entries of the
    [URLSearchParams] appended to [/api/contact?]. *)
Definition URLSearchParams : Type := list (string * string).

(** A timer set by [setTimeout] and not yet fired or cleared: the id
    [setTimeout] returned, the time it is due, and the [searchTerm] its
    callback captured. *)
Record Timer : Type := {
  timerId : nat;
  due : nat;
  captured : string
}.

(** Everything the component can touch: its state, the
    [hasInitialLoaded] ref, the browser's table of pending timers (in
    the order they were set) and the id the next [setTimeout] returns,
    the [timer] constant the cleanup of effect 1 holds (the id returned
    to the last run of the effect), the clock, the requests sent so far
    (oldest first) and the paths given to [router.push]. *)
Record World : Type := {
  st : State;
  hasInitialLoaded : bool;
  timers : list Timer;
  nextTimerId : nat;
  effectTimer : option nat;
  clock : nat;
  requests : list URLSearchParams;
  pushed : list string
}.

Definition initialWorld : World :=
  {| st := initialState; hasInitialLoaded := false; timers := [];
     nextTimerId := 0; effectTimer := None;
     clock := 0; requests := []; pushed := [] |}.

Section Setters.

Definition withState (f : State -> State) (w : World) : World :=
  {| st := f (st w); hasInitialLoaded := hasInitialLoaded w;
     timers := timers w; nextTimerId := nextTimerId w;
     effectTimer := effectTimer w;
     clock := clock w; requests := requests w; pushed := pushed w |}.

Definition setInquiries (v : value) : World -> World :=
  withState (fun s =>
    {| inquiries := v; loading := loading s; error := error s;
       currentPageState := currentPageState s; searchTerm := searchTerm s;
       debouncedSearchTerm := debouncedSearchTerm s;
       isSearching := isSearching s; pagination := pagination s |}).

Definition setLoading (b : bool) : World -> World :=
  withState (fun s =>
    {| inquiries := inquiries s; loading := b; error := error s;
       currentPageState := currentPageState s; searchTerm := searchTerm s;
       debouncedSearchTerm := debouncedSearchTerm s;
       isSearching := isSearching s; pagination := pagination s |}).

Definition setError (e : string) : World -> World :=
  withState (fun s =>
    {| inquiries := inquiries s; loading := loading s; error := e;
       currentPageState := currentPageState s; searchTerm := searchTerm s;
       debouncedSearchTerm := debouncedSearchTerm s;
       isSearching := isSearching s; pagination := pagination s |}).

Definition setCurrentPage (v : value) : World -> World :=
  withState (fun s =>
    {| inquiries := inquiries s; loading := loading s; error := error s;
       currentPageState := v; searchTerm := searchTerm s;
       debouncedSearchTerm := debouncedSearchTerm s;
       isSearching := isSearching s; pagination := pagination s |}).

Definition setSearchTerm (t : string) : World -> World :=
  withState (fun s =>
    {| inquiries := inquiries s; loading := loading s; error := error s;
       currentPageState := currentPageState s; searchTerm := t;
       debouncedSearchTerm := debouncedSearchTerm s;
       isSearching := isSearching s; pagination := pagination s |}).

Definition setDebouncedSearchTerm (t : string) : World -> World :=
  withState (fun s =>
    {| inquiries := inquiries s; loading := loading s; error := error s;
       currentPageState := currentPageState s; searchTerm := searchTerm s;
       debouncedSearchTerm := t;
       isSearching := isSearching s; pagination := pagination s |}).

Definition setIsSearching (b : bool) : World -> World :=
  withState (fun s =>
    {| inquiries := inquiries s; loading := loading s; error := error s;
       currentPageState := currentPageState s; searchTerm := searchTerm s;
       debouncedSearchTerm := debouncedSearchTerm s;
       isSearching := b; pagination := pagination s |}).

Definition setPagination (v : value) : World -> World :=
  withState (fun s =>
    {| inquiries := inquiries s; loading := loading s; error := error s;
       currentPageState := currentPageState s; searchTerm := searchTerm s;
       debouncedSearchTerm := debouncedSearchTerm s;
       isSearching := isSearching s; pagination := v |}).

(** [hasInitialLoaded.current = b] *)
Definition setHasInitialLoaded (b : bool) (w : World) : World :=
  {| st := st w; hasInitialLoaded := b;
     timers := timers w; nextTimerId := nextTimerId w;
     effectTimer := effectTimer w;
     clock := clock w; requests := requests w; pushed := pushed w |}.

(** [setTimeout(cb, delay)], where [cb] captured [search]: one more
    pending timer.  The id it returns is [nextTimerId] of the world it
    is called in. *)
Definition setTimeout (search : string) (delay : nat) (w : World) : World :=
  {| st := st w; hasInitialLoaded := hasInitialLoaded w;
     timers := timers w ++ [ {| timerId := nextTimerId w;
                                due := clock w + delay;
                                captured := search |} ];
     nextTimerId := S (nextTimerId w);
     effectTimer := effectTimer w;
     clock := clock w; requests := requests w; pushed := pushed w |}.

(** [clearTimeout(id)]: the timer of that id, if it is still pending,
    is dropped. *)
Definition clearTimeout (id : nat) (w : World) : World :=
  {| st := st w; hasInitialLoaded := hasInitialLoaded w;
     timers := filter (fun t => negb (timerId t =? id)%nat) (timers w);
     nextTimerId := nextTimerId w;
     effectTimer := effectTimer w;
     clock := clock w; requests := requests w; pushed := pushed w |}.

(** The cleanup closure of effect 1 is replaced: it now holds [id]. *)
Definition setEffectTimer (id : nat) (w : World) : World :=
  {| st := st w; hasInitialLoaded := hasInitialLoaded w;
     timers := timers w; nextTimerId := nextTimerId w;
     effectTimer := Some id;
     clock := clock w; requests := requests w; pushed := pushed w |}.

(** [fetch(`/api/contact?${params}`)]: the request leaves. *)
Definition send (params : URLSearchParams) (w : World) : World :=
  {| st := st w; hasInitialLoaded := hasInitialLoaded w;
     timers := timers w; nextTimerId := nextTimerId w;
     effectTimer := effectTimer w;
     clock := clock w;
     requests := requests w ++ [params]; pushed := pushed w |}.

(** [router.push(path)] *)
Definition router_push (path : string) (w : World) : World :=
  {| st := st w; hasInitialLoaded := hasInitialLoaded w;
     timers := timers w; nextTimerId := nextTimerId w;
     effectTimer := effectTimer w;
     clock := clock w;
     requests := requests w; pushed := pushed w ++ [path] |}.

Definition advanceClock (w : World) : World :=
  {| st := st w; hasInitialLoaded := hasInitialLoaded w;
     timers := timers w; nextTimerId := nextTimerId w;
     effectTimer := effectTimer w;
     clock := S (clock w);
     requests := requests w; pushed := pushed w |}.

End Setters.

(* ===================================================================== *)
(** ** A monad for the body of an async function *)
(* ===================================================================== *)

(** How a block of statements ends: normally with a value, by [return],
    or by a thrown exception. *)
Inductive Completion (A : Type) : Type :=
| Done (a : A)
| Returned
| Thrown.
Arguments Done {A} a.
Arguments Returned {A}.
Arguments Thrown {A}.

Definition M (A : Type) : Type := World -> Completion A * World.

Definition ret {A} (a : A) : M A := fun w => (Done a, w).

Definition bind {A B} (m : M A) (k : A -> M B) : M B :=
  fun w =>
    match m w with
    | (Done a, w') => k a w'
    | (Returned, w') => (Returned, w')
    | (Thrown, w') => (Thrown, w')
    end.

Notation "x <- m ;; k" := (bind m (fun x => k))
  (at level 61, m at next level, right associativity).
Notation "m ;; k" := (bind m (fun _ => k))
  (at level 61, right associativity).

(** A state update such as [setLoading(true)]. *)
Definition act (f : World -> World) : M unit := fun w => (Done tt, f w).

Definition throw {A} : M A := fun w => (Thrown, w).

(** The [return;] statement. *)
Definition return_ {A} : M A := fun w => (Returned, w).

(** A value, or the exception raised where there is none. *)
Definition orThrow {A} (o : option A) : M A :=
  match o with Some a => ret a | None => throw end.

(** [try { body } catch { handler } finally { final }] *)
Definition try_catch_finally (body : M unit) (handler final : World -> World)
  : World -> World :=
  fun w =>
    match body w with
    | (Thrown, w') => final (handler w')
    | (_, w') => final w'
    end.

(* ===================================================================== *)
(** ** fetchInquiries *)
(* ===================================================================== *)

(** What [await fetch(...)] and then [await response.json()] come back
    with: the promise of [fetch] rejects (network failure), or a response
    arrives with a status and a body that parses to a value or does not
    parse ([json()] rejects). *)
Inductive FetchOutcome : Type :=
| Rejected
| Responded (status : Z) (body : option value).

(** [response.ok] *)
Definition ok (status : Z) : bool := ((200 <=? status) && (status <=? 299))%Z.

(** [new URLSearchParams({ page: page.toString(), limit: '10',
                           ...(search && { search }) })] *)
Definition searchParams (page : Z) (search : string) : URLSearchParams :=
  [("page", numToString page); ("limit", "10")]
  ++ (if search =? "" then [] else [("search", search)]).

(** [fetchInquiries(page, search)] up to its first [await]: the loading
    flag is raised and the request leaves. *)
Definition fetchInquiries (page : Z) (search : string) (w : World) : World :=
  send (searchParams page search) (setLoading true w).

(** The [try] block of [fetchInquiries] from the point where the promise
    of [fetch] settles. *)
Definition fetchInquiries_try (page : Z) (outcome : FetchOutcome) : M unit :=
  match outcome with
  | Rejected => throw
  | Responded status body =>
      if (status =? 401)%Z then
        act (router_push "/admin/login") ;;
        return_
      else if negb (ok status) then
        throw
      else
        result <- orThrow body ;;
        data <- orThrow (getProp result "data") ;;
        test <- (if truthy data then orThrow (getProp result "pagination")
                 else ret data) ;;
        if truthy test then
          data <- orThrow (getProp result "data") ;;
          act (setInquiries data) ;;
          pagination <- orThrow (getProp result "pagination") ;;
          act (setPagination pagination) ;;
          currentPage <- orThrow (getProp pagination "currentPage") ;;
          act (setCurrentPage currentPage)
        else
          act (setInquiries result) ;;
          length <- orThrow (getProp result "length") ;;
          act (setPagination
                 (VObj [ ("currentPage", VNum page);
                         ("totalPages", VNum 1);
                         ("totalCount", length);
                         ("hasNextPage", VBool false);
                         ("hasPreviousPage", VBool false);
                         ("limit", VNum 10) ]))
  end.

(** The rest of [fetchInquiries(page, _)] once the promise of [fetch] has
    settled with [outcome]. *)
Definition fetchInquiries_settled (page : Z) (outcome : FetchOutcome)
  : World -> World :=
  try_catch_finally
    (fetchInquiries_try page outcome)
    (setError "Failed to load inquiries")
    (setLoading false).

(* ===================================================================== *)
(** ** Effects and events *)
(* ===================================================================== *)

(** React runs the effects of a commit in the order of their
    declaration, and after the mount runs an effect again only when one
    of its dependencies changed ([Object.is]); a [setState] with the
    value the cell already holds causes no commit.  [fetchInquiries]
    depends on [router] alone and never changes, so the dependencies that
    matter are [searchTerm] and [debouncedSearchTerm].  The state an
    effect sets ([isSearching], [currentPage], [loading]) is read by no
    effect, so applying it at once is the same as applying it at the next
    render. *)

(** Effect 1, "Debounce search term", deps [searchTerm, debouncedSearchTerm].
    The id [setTimeout] returns is the [timer] constant its cleanup will
    clear. *)
Definition debounceEffect (w : World) : World :=
  let w1 :=
    if negb (searchTerm (st w) =? debouncedSearchTerm (st w))
    then setIsSearching true w else w in
  let timer := nextTimerId w1 in
  setEffectTimer timer (setTimeout (searchTerm (st w)) 500 w1).

(** The cleanup of its last run, [() => clearTimeout(timer)]. *)
Definition debounceCleanup (w : World) : World :=
  match effectTimer w with
  | Some timer => clearTimeout timer w
  | None => w
  end.

(** Effect 2, "Initial load", deps [fetchInquiries, debouncedSearchTerm]. *)
Definition initialLoadEffect (w : World) : World :=
  if negb (hasInitialLoaded w) && (debouncedSearchTerm (st w) =? "")
  then fetchInquiries 1 "" (setHasInitialLoaded true w)
  else w.

(** Effect 3, "Fetch inquiries when debounced search term changes", deps
    [debouncedSearchTerm, fetchInquiries]. *)
Definition searchFetchEffect (w : World) : World :=
  if negb (hasInitialLoaded w) then w
  else
    let newPage := 1%Z in
    fetchInquiries newPage (debouncedSearchTerm (st w))
                   (setCurrentPage (VNum newPage) w).

(** Program start: first render with the initial state, then every
    effect once, in order. *)
Definition mount : World :=
  searchFetchEffect (initialLoadEffect (debounceEffect initialWorld)).

(** [handleSearchChange(search)], called by the input's [onChange].  When
    [searchTerm] changes, effect 1 is the only one with a changed
    dependency: its cleanup runs, then its body. *)
Definition handleSearchChange (search : string) (w : World) : World :=
  if search =? searchTerm (st w) then w
  else debounceEffect (debounceCleanup (setSearchTerm search w)).

(** The callback given to [setTimeout], which captured [captured]:
    [setDebouncedSearchTerm(searchTerm); setIsSearching(false)], and the
    commit that follows.  All three effects depend on
    [debouncedSearchTerm]. *)
Definition timerCallback (captured : string) (w : World) : World :=
  let changed := negb (captured =? debouncedSearchTerm (st w)) in
  let w1 := setIsSearching false (setDebouncedSearchTerm captured w) in
  if changed
  then searchFetchEffect (initialLoadEffect (debounceEffect (debounceCleanup w1)))
  else w1.

(** The timers that are due fire one after the other, the one set first
    going first; a timer that fires is pending no more.  A callback sets
    timers that are due 500 ms later only, so as many rounds as there are
    pending timers are enough. *)
Fixpoint fireDue (rounds : nat) (w : World) : World :=
  match rounds with
  | O => w
  | S rounds' =>
      match find (fun t => (due t <=? clock w)%nat) (timers w) with
      | Some t =>
          fireDue rounds' (timerCallback (captured t) (clearTimeout (timerId t) w))
      | None => w
      end
  end.

(** One millisecond passes; the timers that are due fire. *)
Definition tick (w : World) : World :=
  let w1 := advanceClock w in
  fireDue (List.length (timers w1)) w1.

Fixpoint advance (ms : nat) (w : World) : World :=
  match ms with
  | O => w
  | S ms' => advance ms' (tick w)
  end.

(** [handlePageChange(page)] *)
Definition handlePageChange (page : Z) (w : World) : World :=
  fetchInquiries page (debouncedSearchTerm (st w)) (setCurrentPage (VNum page) w).

(** What can happen to the mounted component. *)
Inductive Event : Type :=
| Tick
| Input (search : string)
| PageChange (page : Z)
| Settled (page : Z) (outcome : FetchOutcome).

Definition step (e : Event) (w : World) : World :=
  match e with
  | Tick => tick w
  | Input search => handleSearchChange search w
  | PageChange page => handlePageChange page w
  | Settled page outcome => fetchInquiries_settled page outcome w
  end.

Definition run (es : list Event) (w : World) : World :=
  fold_left (fun w e => step e w) es w.

(** The worlds the mounted component can be in. *)
Inductive Reachable : World -> Prop :=
| Reachable_mount : Reachable mount
| Reachable_step e w : Reachable w -> Reachable (step e w).

(** A burst of keystrokes: each value with the time since the one before
    it. *)
Fixpoint keystrokes (ks : list (nat * string)) (w : World) : World :=
  match ks with
  | [] => w
  | (gap, search) :: ks' => keystrokes ks' (handleSearchChange search (advance gap w))
  end.

(* ===================================================================== *)
(** ** CSV export *)
(* ===================================================================== *)

(** The double-quote character, and the line feed. *)
Definition dq : ascii := "034"%char.
Definition lf : ascii := "010"%char.
Definition comma : ascii := ","%char.

(** [s.replace(/c/g, by)] for a pattern of one character. *)
Fixpoint replaceAll (c : ascii) (by_ : string) (s : string) : string :=
  match s with
  | EmptyString => EmptyString
  | String a s' =>
      (if Ascii.eqb a c then by_ else String a EmptyString) ++ replaceAll c by_ s'
  end.

(** [s.replace(/QUOTE/g, QUOTE QUOTE)], the replacement made on the message:
    each double quote becomes two. *)
Definition escapeQuotes (s : string) : string :=
  replaceAll dq (String dq (String dq EmptyString)) s.

(** The template literal that puts [s] between two double quotes. *)
Definition quoted (s : string) : string := String dq (s ++ String dq EmptyString).

(** [o || d] for an optional string: [undefined] and the empty string are
    falsy. *)
Definition orElse (o : option string) (d : string) : string :=
  match o with
  | Some s => if s =? "" then d else s
  | None => d
  end.

Definition headers : list string :=
  ["ID"; "Name"; "Email"; "Company"; "Subject"; "Message"; "Status"; "Timestamp"].

(** The array built for one inquiry, before [.join(',')]. *)
Definition csvFields (inquiry : Inquiry) : list string :=
  [ _id inquiry;
    quoted (name inquiry);
    email inquiry;
    orElse (company inquiry) "";
    quoted (subject inquiry);
    quoted (escapeQuotes (message inquiry));
    orElse (option_map Status_string (status inquiry)) "new";
    timestamp inquiry ].

Definition csvRow (inquiry : Inquiry) : string :=
  String.concat "," (csvFields inquiry).

(** The array [[headers.join(','), ...inquiries.map(...)]]. *)
Definition csvRows (inquiries : list Inquiry) : list string :=
  String.concat "," headers :: map csvRow inquiries.

(** [csvContent] of [exportToCSV]: the text of the blob offered for
    download. *)
Definition exportToCSV (inquiries : list Inquiry) : string :=
  String.concat (String lf EmptyString) (csvRows inquiries).

(** *** The export at run time

    The export reads the fields of whatever objects the list holds.  The
    type of [status] is a union of string literals, which nothing checks
    when a response is adopted: at run time the field holds the string
    that was served.  [ServedInquiry] is an inquiry with such a status,
    and [servedFields] is the array of [exportToCSV] read on it; on an
    inquiry of the declared type it is [csvFields]. *)
Record ServedInquiry : Type := {
  served_id : string;
  served_name : string;
  served_email : string;
  served_company : option string;
  served_subject : string;
  served_message : string;
  served_timestamp : string;
  served_status : option string
}.

Definition served (inquiry : Inquiry) : ServedInquiry :=
  {| served_id := _id inquiry;
     served_name := name inquiry;
     served_email := email inquiry;
     served_company := company inquiry;
     served_subject := subject inquiry;
     served_message := message inquiry;
     served_timestamp := timestamp inquiry;
     served_status := option_map Status_string (status inquiry) |}.



(** *** Reading CSV back

    What a CSV reader does with a quoted field, used to say what
    "escaped by doubling" and "column" mean. *)

(** Every double quote of [s] is followed by a second one, and the two
    are read together. *)
Fixpoint quotes_paired (s : string) : bool :=
  match s with
  | EmptyString => true
  | String a s' =>
      if Ascii.eqb a dq then
        match s' with
        | String b s'' => Ascii.eqb b dq && quotes_paired s''
        | EmptyString => false
        end
      else quotes_paired s'
  end.

(** The text a reader recovers from the inside of a quoted field: each
    doubled quote stands for one. *)
Fixpoint undouble (s : string) : string :=
  match s with
  | EmptyString => EmptyString
  | String a s' =>
      match s' with
      | String b s'' =>
          if Ascii.eqb a dq && Ascii.eqb b dq then String dq (undouble s'')
          else String a (undouble s')
      | EmptyString => String a EmptyString
      end
  end.

Fixpoint count_char (c : ascii) (s : string) : nat :=
  match s with
  | EmptyString => 0
  | String a s' => (if Ascii.eqb a c then 1 else 0) + count_char c s'
  end.



(* ===================================================================== *)
(** ** Refresh *)
(* ===================================================================== *)

(** [v.toString()].  [None] is the TypeError of a method call on [null]
    or [undefined], or on an object parsed from JSON that has a property
    of its own named [toString] (it cannot be a function).  An array
    joins its elements with commas, [null] and [undefined] elements
    giving the empty string. *)
Fixpoint toStringOf (v : value) : option string :=
  match v with
  | VUndefined | VNull => None
  | VBool b => Some (if b then "true" else "false")
  | VNum n => Some (numToString n)
  | VStr s => Some s
  | VArr elems =>
      (fix join (l : list value) : option string :=
         match l with
         | [] => Some EmptyString
         | x :: rest =>
             let first :=
               match x with
               | VUndefined | VNull => Some EmptyString
               | _ => toStringOf x
               end in
             match rest with
             | [] => first
             | _ :: _ =>
                 match first, join rest with
                 | Some a, Some b => Some (a ++ "," ++ b)%string
                 | _, _ => None
                 end
             end
         end) elems
  | VObj fields =>
      match lookup "toString" fields with
      | VUndefined => Some "[object Object]"
      | _ => None
      end
  end.

(** [fetchInquiries(page, search)] up to its first [await], for a page
    that is whatever the caller read from a state cell: when
    [page.toString()] throws, the handler and the [finally] clause run at
    once and nothing is sent. *)
Definition fetchInquiries_any (page : value) (search : string) (w : World)
  : World :=
  match toStringOf page with
  | Some p =>
      send ([("page", p); ("limit", "10")]
            ++ (if search =? "" then [] else [("search", search)]))
           (setLoading true w)
  | None =>
      setLoading false (setError "Failed to load inquiries" (setLoading true w))
  end.

(** The [try] block from the point where the promise of [fetch] settles,
    for such a page. *)
Definition fetchInquiries_try_any (page : value) (outcome : FetchOutcome)
  : M unit :=
  match outcome with
  | Rejected => throw
  | Responded status body =>
      if (status =? 401)%Z then
        act (router_push "/admin/login") ;;
        return_
      else if negb (ok status) then
        throw
      else
        result <- orThrow body ;;
        data <- orThrow (getProp result "data") ;;
        test <- (if truthy data then orThrow (getProp result "pagination")
                 else ret data) ;;
        if truthy test then
          data <- orThrow (getProp result "data") ;;
          act (setInquiries data) ;;
          pagination <- orThrow (getProp result "pagination") ;;
          act (setPagination pagination) ;;
          currentPage <- orThrow (getProp pagination "currentPage") ;;
          act (setCurrentPage currentPage)
        else
          act (setInquiries result) ;;
          length <- orThrow (getProp result "length") ;;
          act (setPagination
                 (VObj [ ("currentPage", page);
                         ("totalPages", VNum 1);
                         ("totalCount", length);
                         ("hasNextPage", VBool false);
                         ("hasPreviousPage", VBool false);
                         ("limit", VNum 10) ]))
  end.

Definition fetchInquiries_settled_any (page : value) (outcome : FetchOutcome)
  : World -> World :=
  try_catch_finally
    (fetchInquiries_try_any page outcome)
    (setError "Failed to load inquiries")
    (setLoading false).

(** [handleRefresh()], behind the Refresh and Try Again buttons. *)
Definition handleRefresh (w : World) : World :=
  fetchInquiries_any (currentPageState (st w)) (debouncedSearchTerm (st w)) w.

(** Everything that can happen to the mounted component, the refresh and
    the settling of its request included. *)
Inductive Action : Type :=
| Plain (e : Event)
| Refresh
| SettledAny (page : value) (outcome : FetchOutcome).

Definition perform (a : Action) (w : World) : World :=
  match a with
  | Plain e => step e w
  | Refresh => handleRefresh w
  | SettledAny page outcome => fetchInquiries_settled_any page outcome w
  end.

Inductive Attainable : World -> Prop :=
| Attainable_mount : Attainable mount
| Attainable_perform a w : Attainable w -> Attainable (perform a w).

(** [null] and [undefined], the values a property read throws on. *)
Definition nullish (v : value) : bool :=
  match v with VUndefined | VNull => true | _ => false end.

(** The component renders the error page, and nothing else, when the
    error is a non-empty string ([if (error) return ...]). *)
Definition showsErrorPage (w : World) : bool := negb (error (st w) =? "").

(* ===================================================================== *)
(** ** The pagination bar *)
(* ===================================================================== *)

(** The caption [Showing {from} to {to} of {totalCount} inquiries], for a
    pagination of the declared type. *)
Definition showingFrom (p : PaginationInfo) : Z :=
  ((currentPage p - 1) * limit p + 1)%Z.

Definition showingTo (p : PaginationInfo) : Z :=
  Z.min (currentPage p * limit p) (totalCount p).

(** The four buttons of the bar. *)
Inductive NavButton : Type := FirstPage | PreviousPage | NextPage | LastPage.

(** The [disabled] attribute of a button. *)
Definition navDisabled (b : NavButton) (p : PaginationInfo) : bool :=
  match b with
  | FirstPage | PreviousPage => negb (hasPreviousPage p)
  | NextPage | LastPage => negb (hasNextPage p)
  end.

(** The page its [onClick] gives to [handlePageChange]. *)
Definition navTarget (b : NavButton) (p : PaginationInfo) : Z :=
  match b with
  | FirstPage => 1
  | PreviousPage => currentPage p - 1
  | NextPage => currentPage p + 1
  | LastPage => totalPages p
  end%Z.

(** A click on a button of the bar rendered from [p] (the bar is there
    when the list is loaded and not empty): a disabled button does
    nothing. *)
Definition clickNav (b : NavButton) (p : PaginationInfo) (w : World) : World :=
  if navDisabled b p then w else handlePageChange (navTarget b p) w.

(* ===================================================================== *)
(** ** Mail links *)
(* ===================================================================== *)

(** Strings are taken as their UTF-8 bytes here: [encodeURIComponent]
    keeps the bytes of the unreserved characters (letters, digits and
    [- _ . ! ~ * ' ( )]) and writes every other byte as a percent sign
    and two upper-case hexadecimal digits. *)
Definition unreserved (a : ascii) : bool :=
  let n := nat_of_ascii a in
  ((65 <=? n) && (n <=? 90) || (97 <=? n) && (n <=? 122)
   || (48 <=? n) && (n <=? 57)
   || (n =? 45) || (n =? 95) || (n =? 46) || (n =? 33) || (n =? 126)
   || (n =? 42) || (n =? 39) || (n =? 40) || (n =? 41))%nat.

Definition hexDigit (n : nat) : ascii :=
  ascii_of_nat (if (n <? 10)%nat then 48 + n else 55 + n).

Definition percent : ascii := "%"%char.

Fixpoint encodeURIComponent (s : string) : string :=
  match s with
  | EmptyString => EmptyString
  | String a s' =>
      if unreserved a then String a (encodeURIComponent s')
      else
        let n := nat_of_ascii a in
        String percent
          (String (hexDigit (n / 16))
             (String (hexDigit (n mod 16)) (encodeURIComponent s')))
  end.

(** The submit handler of the enquiry form: the address the window is
    sent to, for the text of the email input. *)
Definition enquireHref (email : string) : string :=
  ("mailto:codematricsitsolution@gmail.com?subject="
   ++ encodeURIComponent "New Enquiry"
   ++ "&body="
   ++ encodeURIComponent
        ("Hello, I would like to enquire. My email is: " ++ email))%string.

(** The address behind Reply via Email in the details of an inquiry: a
    template literal, nothing encoded. *)
Definition replyHref (inquiry : Inquiry) : string :=
  ("mailto:" ++ email inquiry
   ++ "?subject=Re: " ++ subject inquiry
   ++ "&body=Hello " ++ name inquiry
   ++ ",%0D%0A%0D%0AThank you for your inquiry about " ++ subject inquiry
   ++ ".%0D%0A%0D%0A")%string.

(** *** Reading back

    What a reader of percent-encoded text and a reader of CSV (RFC 4180)
    do, to say what the links and the export mean to them. *)

Definition hexValue (a : ascii) : option nat :=
  let n := nat_of_ascii a in
  if ((48 <=? n) && (n <=? 57))%nat then Some (n - 48)
  else if ((65 <=? n) && (n <=? 70))%nat then Some (n - 55)
  else if ((97 <=? n) && (n <=? 102))%nat then Some (n - 87)
  else None.

(** Percent-decoding; [None] for a percent sign that two hexadecimal
    digits do not follow. *)
Fixpoint percentDecode (s : string) : option string :=
  match s with
  | EmptyString => Some EmptyString
  | String a s' =>
      if Ascii.eqb a percent then
        match s' with
        | String h (String l s'') =>
            match hexValue h, hexValue l, percentDecode s'' with
            | Some x, Some y, Some r => Some (String (ascii_of_nat (16 * x + y)) r)
            | _, _, _ => None
            end
        | _ => None
        end
      else option_map (String a) (percentDecode s')
  end.

(** A CSV reader: [field] is the text of the field being read, [row] the
    fields of the row read so far.  Outside quotes a comma ends the
    field and a line feed ends the row; inside quotes a doubled quote is
    one quote and a single one ends the quoted stretch. *)
Fixpoint readCsv (inQuotes : bool) (field : string) (row : list string)
         (s : string) : list (list string) :=
  match s with
  | EmptyString => [row ++ [field]]
  | String a s' =>
      if inQuotes then
        if Ascii.eqb a dq then
          match s' with
          | String b s'' =>
              if Ascii.eqb b dq
              then readCsv true (field ++ String dq EmptyString) row s''
              else readCsv false field row s'
          | EmptyString => [row ++ [field]]
          end
        else readCsv true (field ++ String a EmptyString) row s'
      else if Ascii.eqb a comma then readCsv false EmptyString (row ++ [field]) s'
      else if Ascii.eqb a lf then (row ++ [field]) :: readCsv false EmptyString [] s'
      else if Ascii.eqb a dq then readCsv true field row s'
      else readCsv false (field ++ String a EmptyString) row s'
  end.

(** The fields of an inquiry as the export means them. *)
Definition exportedFields (inquiry : Inquiry) : list string :=
  [ _id inquiry; name inquiry; email inquiry; orElse (company inquiry) "";
    subject inquiry; message inquiry;
    orElse (option_map Status_string (status inquiry)) "new";
    timestamp inquiry ].

(** A field that can be written bare: no double quote, comma or line
    feed. *)
Definition bare (s : string) : Prop :=
  count_char dq s = 0 /\ count_char comma s = 0 /\ count_char lf s = 0.

(** An inquiry the export writes readably: the four bare fields are
    bare, and the name and the subject hold no double quote.  The
    message is free. *)
Definition exportable (inquiry : Inquiry) : Prop :=
  bare (_id inquiry) /\ bare (email inquiry) /\
  bare (orElse (company inquiry) "") /\ bare (timestamp inquiry) /\
  count_char dq (name inquiry) = 0 /\ count_char dq (subject inquiry) = 0.

(* ===================================================================== *)
(** ** Notions used in the statements *)
(* ===================================================================== *)

(** [v.k] where the read is known not to throw. *)
Definition prop (v : value) (k : string) : value :=
  match getProp v k with Some x => x | None => VUndefined end.

(** The three ways [fetchInquiries] deals with what came back. *)
Inductive Handling : Type :=
| Redirected
| Failed
| Adopted (result : value).

Definition handling (outcome : FetchOutcome) : Handling :=
  match outcome with
  | Rejected => Failed
  | Responded status body =>
      if (status =? 401)%Z then Redirected
      else if negb (ok status) then Failed
      else match body with
           | None => Failed
           | Some result => if nullish result then Failed else Adopted result
           end
  end.

(* ===================================================================== *)

(** The part of the world the debounce machinery lives in. *)
Definition same_search (w w' : World) : Prop :=
  searchTerm (st w') = searchTerm (st w) /\
  debouncedSearchTerm (st w') = debouncedSearchTerm (st w) /\
  isSearching (st w') = isSearching (st w) /\
  hasInitialLoaded w' = hasInitialLoaded w /\
  (timers w' = timers w /\ nextTimerId w' = nextTimerId w /\
   effectTimer w' = effectTimer w) /\
  clock w' = clock w /\
  requests w' = requests w.

(** A computation of [M] that stays out of that part. *)
Definition keeps_search {A} (m : M A) : Prop :=
  forall w c w', m w = (c, w') -> same_search w w'.

(** Time passes and nothing else happens. *)
Definition elapse (k : nat) (w : World) : World :=
  {| st := st w; hasInitialLoaded := hasInitialLoaded w;
     timers := timers w; nextTimerId := nextTimerId w;
     effectTimer := effectTimer w;
     clock := k + clock w;
     requests := requests w; pushed := pushed w |}.

(** Each value differs from the one before it, starting after [prev]:
    the values are changes of the input. *)
Fixpoint changes (prev : string) (values : list string) : Prop :=
  match values with
  | [] => True
  | v :: values' => prev <> v /\ changes v values'
  end.

(** [search] has just been typed: it is the raw value, and the one
    pending timer is the one the effect set for it just now, with the
    whole quiet period to run. *)
Definition just_typed (search : string) (w : World) : Prop :=
  searchTerm (st w) = search /\
  exists id : nat,
    timers w = [ {| timerId := id; due := clock w + 500; captured := search |} ] /\
    effectTimer w = Some id.

(** What the debounce machinery keeps true.  At most one timer is
    pending; it is the one the cleanup of effect 1 holds, it carries the
    raw term and it is due within the quiet period.  With no timer
    pending the raw and the committed term agree and the searching flag
    is off. *)
Definition debounce_inv (w : World) : Prop :=
  match timers w with
  | [] =>
      searchTerm (st w) = debouncedSearchTerm (st w) /\ isSearching (st w) = false
  | [t] =>
      effectTimer w = Some (timerId t) /\
      captured t = searchTerm (st w) /\ clock w < due t <= clock w + 500
  | _ :: _ :: _ => False
  end.

(** Every pending timer is the one the cleanup of effect 1 holds. *)
Definition held (w : World) : Prop :=
  forall t : Timer, In t (timers w) -> effectTimer w = Some (timerId t).

(** The text of the export after its header: each row on a new line. *)
Definition linesAfter (inquiries : list Inquiry) : string :=
  fold_right (fun inquiry rest => String lf (csvRow inquiry ++ rest)%string)
             EmptyString inquiries.

(** An inquiry to try the export on. *)
Definition sampleInquiry : Inquiry :=
  {| _id := "42"; name := "Ann"; email := "ann@example.org"; company := None;
     subject := "Hello";
     message := "say " ++ String dq ("hi" ++ String dq EmptyString);
     timestamp := "2024-01-01T00:00:00Z"; status := None |}.

(* ===================================================================== *)
(** ** Response handling *)
(* ===================================================================== *)

Section ResponseHandling.

Lemma ok_not_401 (status : Z) : ok status = true -> (status =? 401)%Z = false.
Proof. unfold ok. lia. Qed.

Lemma ok_range (status : Z) :
  ok status = true <-> (200 <= status <= 299)%Z.
Proof. unfold ok. lia. Qed.

Lemma PaginationInfo_value_inj (p q : PaginationInfo) :
  PaginationInfo_value p = PaginationInfo_value q -> p = q.
Proof.
  destruct p, q. unfold PaginationInfo_value. simpl.
  intros H. injection H as -> -> -> -> -> ->. reflexivity.
Qed.

(** A thrown exception anywhere in the [try] block: the handler sets
    the error, [finally] lowers the loading flag, and whatever the
    block had done before the throw stays done. *)
Lemma settled_when_thrown page outcome w w1 :
  fetchInquiries_try page outcome w = (Thrown, w1) ->
  fetchInquiries_settled page outcome w =
  setLoading false (setError "Failed to load inquiries" w1).
Proof.
  intros H. unfold fetchInquiries_settled, try_catch_finally.
  rewrite H. reflexivity.
Qed.

(** A 2xx response with a parsed body: what the [try] block does is
    decided by the body alone. *)
Lemma try_2xx page status result w :
  ok status = true ->
  fetchInquiries_try page (Responded status (Some result)) w =
  fetchInquiries_try page (Responded 200 (Some result)) w.
Proof.
  intros Hok. unfold fetchInquiries_try.
  rewrite (ok_not_401 _ Hok), Hok. reflexivity.
Qed.

Lemma settled_2xx page status result w :
  ok status = true ->
  fetchInquiries_settled page (Responded status (Some result)) w =
  fetchInquiries_settled page (Responded 200 (Some result)) w.
Proof.
  intros Hok. unfold fetchInquiries_settled, try_catch_finally.
  rewrite (try_2xx _ _ _ _ Hok). reflexivity.
Qed.

(** Shape A: an object whose [data] and [pagination] are both truthy. *)
Lemma settled_shape_A page fields data pg cp w :
  lookup "data" fields = data -> truthy data = true ->
  lookup "pagination" fields = pg -> truthy pg = true ->
  getProp pg "currentPage" = Some cp ->
  fetchInquiries_settled page (Responded 200 (Some (VObj fields))) w =
  setLoading false (setCurrentPage cp (setPagination pg (setInquiries data w))).
Proof.
  intros Hd Htd Hp Htp Hcp.
  unfold fetchInquiries_settled, try_catch_finally, fetchInquiries_try.
  cbn [Z.eqb Pos.eqb ok Z.leb Z.compare Pos.compare Pos.compare_cont
       andb negb orThrow getProp bind ret act].
  rewrite Hd, Htd. cbn [orThrow bind ret]. rewrite Hp, Htp.
  cbn [orThrow bind ret act]. rewrite Hcp. reflexivity.
Qed.

(** Shape B: a bare array. *)
Lemma settled_shape_B page elems w :
  fetchInquiries_settled page (Responded 200 (Some (VArr elems))) w =
  setLoading false
    (setPagination
       (PaginationInfo_value
          {| currentPage := page; totalPages := 1;
             totalCount := Z.of_nat (List.length elems);
             hasNextPage := false; hasPreviousPage := false; limit := 10 |})
       (setInquiries (VArr elems) w)).
Proof. reflexivity. Qed.

End ResponseHandling.

(** C3. A 2xx response whose body is a bare array: the array becomes the
    inquiry list, and the pagination put in its place has totalPages 1,
    totalCount the length of the array, and neither a next nor a previous
    page.  (A body of four elements gives totalCount 4.) *)
Theorem bare_array_adopted (page status : Z) (elems : list value) (w : World) :
  ok status = true ->
  let w' := fetchInquiries_settled page (Responded status (Some (VArr elems))) w in
  inquiries (st w') = VArr elems /\
  exists p : PaginationInfo,
    pagination (st w') = PaginationInfo_value p /\
    totalPages p = 1%Z /\
    totalCount p = Z.of_nat (List.length elems) /\
    hasNextPage p = false /\
    hasPreviousPage p = false.
Proof.
  intros Hok w'. subst w'.
  rewrite (settled_2xx _ _ _ _ Hok), settled_shape_B.
  split; [reflexivity|].
  eexists. split; [reflexivity|]. cbn. auto.
Qed.

Lemma bare_array_adopted_witness :
  let body := VArr [VNull; VBool true; VNum 7; VStr "x"] in
  let w' := fetchInquiries_settled 1 (Responded 200 (Some body)) mount in
  inquiries (st w') = body /\
  exists p : PaginationInfo,
    pagination (st w') = PaginationInfo_value p /\
    totalPages p = 1%Z /\ totalCount p = 4%Z /\
    hasNextPage p = false /\ hasPreviousPage p = false.
Proof.
  intros body.
  exact (bare_array_adopted 1 200 [VNull; VBool true; VNum 7; VStr "x"] mount
           eq_refl).
Defined.

(** C4. A response whose status is neither 2xx nor 401: the error is set
    to the load-failure message, and the inquiry list and the pagination
    stay as they were. *)
Theorem failure_status_sets_error (page status : Z) (body : option value)
        (w : World) :
  ok status = false -> status <> 401%Z ->
  let w' := fetchInquiries_settled page (Responded status body) w in
  error (st w') = "Failed to load inquiries" /\
  inquiries (st w') = inquiries (st w) /\
  pagination (st w') = pagination (st w).
Proof.
  intros Hok H401 w'. subst w'.
  rewrite (settled_when_thrown _ _ _ w).
  - repeat split.
  - unfold fetchInquiries_try.
    apply Z.eqb_neq in H401. rewrite H401, Hok. reflexivity.
Qed.

Lemma failure_status_sets_error_witness :
  let w' := fetchInquiries_settled 2 (Responded 500 None) mount in
  error (st w') = "Failed to load inquiries" /\
  inquiries (st w') = inquiries (st mount) /\
  pagination (st w') = pagination (st mount).
Proof.
  apply (failure_status_sets_error 2 500 None mount); [reflexivity | lia].
Defined.

(** C5. A 401 response: the router is sent to /admin/login, nothing else
    of the response is processed (inquiry list and pagination stay as
    they were), and the error is not touched. *)
Theorem unauthorized_redirects (page : Z) (body : option value) (w : World) :
  let w' := fetchInquiries_settled page (Responded 401 body) w in
  pushed w' = pushed w ++ ["/admin/login"] /\
  inquiries (st w') = inquiries (st w) /\
  pagination (st w') = pagination (st w) /\
  currentPageState (st w') = currentPageState (st w) /\
  error (st w') = error (st w).
Proof. repeat split. Qed.

(** C10. A 2xx response whose body does not parse: the error is set to
    the load-failure message, the loading flag is lowered, and the
    inquiry list and the pagination stay as they were; the outcome is the
    one of a rejected [fetch]. *)
Theorem unparseable_body_sets_error (page status : Z) (w : World) :
  ok status = true ->
  let w' := fetchInquiries_settled page (Responded status None) w in
  error (st w') = "Failed to load inquiries" /\
  loading (st w') = false /\
  inquiries (st w') = inquiries (st w) /\
  pagination (st w') = pagination (st w) /\
  w' = fetchInquiries_settled page Rejected w.
Proof.
  intros Hok w'. subst w'.
  rewrite (settled_when_thrown _ _ _ w), (settled_when_thrown _ Rejected _ w).
  - repeat split.
  - reflexivity.
  - unfold fetchInquiries_try. rewrite (ok_not_401 _ Hok), Hok. reflexivity.
Qed.

Lemma unparseable_body_sets_error_witness :
  let w' := fetchInquiries_settled 1 (Responded 204 None) mount in
  error (st w') = "Failed to load inquiries" /\
  loading (st w') = false /\
  inquiries (st w') = inquiries (st mount) /\
  pagination (st w') = pagination (st mount) /\
  w' = fetchInquiries_settled 1 Rejected mount.
Proof.
  exact (unparseable_body_sets_error 1 204 mount eq_refl).
Defined.




(* ===================================================================== *)
(** ** What settling a request leaves alone *)
(* ===================================================================== *)

Section Frame.

Lemma same_search_refl w : same_search w w.
Proof. repeat split. Qed.

Lemma same_search_trans w1 w2 w3 :
  same_search w1 w2 -> same_search w2 w3 -> same_search w1 w3.
Proof.
  unfold same_search.
  intros (?&?&?&?&(?&?&?)&?&?) (?&?&?&?&(?&?&?)&?&?).
  repeat split; congruence.
Qed.

Lemma keeps_ret {A} (a : A) : keeps_search (ret a).
Proof. intros w c w' [= _ <-]. apply same_search_refl. Qed.

Lemma keeps_throw {A} : keeps_search (@throw A).
Proof. intros w c w' [= _ <-]. apply same_search_refl. Qed.

Lemma keeps_return {A} : keeps_search (@return_ A).
Proof. intros w c w' [= _ <-]. apply same_search_refl. Qed.

Lemma keeps_orThrow {A} (o : option A) : keeps_search (orThrow o).
Proof. destruct o; [apply keeps_ret | apply keeps_throw]. Qed.

Lemma keeps_bind {A B} (m : M A) (k : A -> M B) :
  keeps_search m -> (forall a, keeps_search (k a)) -> keeps_search (bind m k).
Proof.
  intros Hm Hk w c w'. unfold bind.
  destruct (m w) as [[a| |] w1] eqn:E; intros H.
  - eapply same_search_trans; [eapply Hm, E | eapply Hk, H].
  - injection H as _ <-. eapply Hm, E.
  - injection H as _ <-. eapply Hm, E.
Qed.

Lemma keeps_act (f : World -> World) :
  (forall w, same_search w (f w)) -> keeps_search (act f).
Proof. intros Hf w c w' [= _ <-]. apply Hf. Qed.

Lemma keeps_if {A} (b : bool) (m1 m2 : M A) :
  keeps_search m1 -> keeps_search m2 -> keeps_search (if b then m1 else m2).
Proof. destruct b; auto. Qed.

Lemma same_search_setInquiries v w : same_search w (setInquiries v w).
Proof. repeat split. Qed.
Lemma same_search_setPagination v w : same_search w (setPagination v w).
Proof. repeat split. Qed.
Lemma same_search_setCurrentPage v w : same_search w (setCurrentPage v w).
Proof. repeat split. Qed.
Lemma same_search_setError e w : same_search w (setError e w).
Proof. repeat split. Qed.
Lemma same_search_setLoading b w : same_search w (setLoading b w).
Proof. repeat split. Qed.
Lemma same_search_router_push p w : same_search w (router_push p w).
Proof. repeat split. Qed.

Create HintDb frame.
#[local] Hint Resolve keeps_ret keeps_throw keeps_return keeps_orThrow
  keeps_act keeps_if same_search_setInquiries same_search_setPagination
  same_search_setCurrentPage same_search_setError same_search_setLoading
  same_search_router_push same_search_refl : frame.

Lemma keeps_fetchInquiries_try page outcome :
  keeps_search (fetchInquiries_try page outcome).
Proof.
  destruct outcome as [|status body]; cbn [fetchInquiries_try];
    [auto with frame|].
  repeat first
    [ apply keeps_if
    | apply keeps_bind; [|intros ?]
    | solve [auto with frame] ].
Qed.

Lemma settled_same_search page outcome w :
  same_search w (fetchInquiries_settled page outcome w).
Proof.
  unfold fetchInquiries_settled, try_catch_finally.
  destruct (fetchInquiries_try page outcome w) as [c w1] eqn:E.
  apply keeps_fetchInquiries_try in E.
  destruct c;
    repeat (eapply same_search_trans; [|solve [auto with frame]]);
    exact E.
Qed.

End Frame.

(* ===================================================================== *)
(** ** Startup and the committed search term *)
(* ===================================================================== *)

Section Startup.

Lemma initialLoadEffect_loaded w :
  hasInitialLoaded w = true -> initialLoadEffect w = w.
Proof. intros H. unfold initialLoadEffect. rewrite H. reflexivity. Qed.

Lemma timerCallback_keeps_loaded search w :
  hasInitialLoaded w = true ->
  hasInitialLoaded (timerCallback search w) = true.
Proof.
  intros H. unfold timerCallback.
  destruct (negb (search =? debouncedSearchTerm (st w))); [|exact H].
  rewrite initialLoadEffect_loaded.
  - unfold searchFetchEffect, debounceEffect, debounceCleanup.
    cbn [effectTimer setIsSearching setDebouncedSearchTerm withState].
    destruct (effectTimer w);
      destruct (searchTerm _ =? debouncedSearchTerm _); cbn; rewrite H; exact H.
  - unfold debounceEffect, debounceCleanup.
    cbn [effectTimer setIsSearching setDebouncedSearchTerm withState].
    destruct (effectTimer w);
      destruct (searchTerm _ =? debouncedSearchTerm _); exact H.
Qed.

(** What every timer callback keeps, the firing of the due timers
    keeps. *)
Lemma fireDue_preserves (P : World -> Prop) :
  (forall id w, P w -> P (clearTimeout id w)) ->
  (forall search w, P w -> P (timerCallback search w)) ->
  forall rounds w, P w -> P (fireDue rounds w).
Proof.
  intros Hc Ht. induction rounds as [|rounds IH]; intros w H; [exact H|].
  cbn [fireDue].
  destruct (find (fun t => (due t <=? clock w)%nat) (timers w)) as [t|];
    [|exact H].
  apply IH, Ht, Hc, H.
Qed.

Lemma tick_preserves (P : World -> Prop) :
  (forall w, P w -> P (advanceClock w)) ->
  (forall id w, P w -> P (clearTimeout id w)) ->
  (forall search w, P w -> P (timerCallback search w)) ->
  forall w, P w -> P (tick w).
Proof.
  intros Ha Hc Ht w H. unfold tick.
  apply fireDue_preserves; auto.
Qed.

Lemma tick_keeps_loaded w :
  hasInitialLoaded w = true -> hasInitialLoaded (tick w) = true.
Proof.
  apply (tick_preserves (fun w => hasInitialLoaded w = true)); auto.
  intros search w0. apply timerCallback_keeps_loaded.
Qed.

Lemma step_keeps_loaded e w :
  hasInitialLoaded w = true -> hasInitialLoaded (step e w) = true.
Proof.
  intros H. destruct e as [|search|page|page outcome]; cbn [step].
  - apply tick_keeps_loaded, H.
  - unfold handleSearchChange, debounceEffect, debounceCleanup.
    destruct (search =? searchTerm (st w)); [exact H|].
    cbn [effectTimer setSearchTerm withState].
    destruct (effectTimer w); destruct (negb _); exact H.
  - exact H.
  - destruct (settled_same_search page outcome w) as (_&_&_&->&_). exact H.
Qed.

(** Once mounted, the ref stays set. *)
Lemma Reachable_loaded w : Reachable w -> hasInitialLoaded w = true.
Proof.
  induction 1 as [|e w _ IH]; [reflexivity | apply step_keeps_loaded, IH].
Qed.

Lemma Reachable_advance n w : Reachable w -> Reachable (advance n w).
Proof.
  revert w. induction n as [|n IH]; intros w H; [exact H|].
  cbn [advance]. apply IH. exact (Reachable_step Tick w H).
Qed.

Lemma Reachable_run es w : Reachable w -> Reachable (run es w).
Proof.
  revert w. induction es as [|e es IH]; intros w H; [exact H|].
  apply IH. exact (Reachable_step e w H).
Qed.

(** What the timer callback does once the component is mounted. *)
Lemma timerCallback_same search w :
  search = debouncedSearchTerm (st w) ->
  timerCallback search w =
  setIsSearching false (setDebouncedSearchTerm search w).
Proof.
  intros ->. unfold timerCallback. rewrite String.eqb_refl. reflexivity.
Qed.

Lemma timerCallback_changed search w :
  hasInitialLoaded w = true ->
  search <> debouncedSearchTerm (st w) ->
  let w' := timerCallback search w in
  debouncedSearchTerm (st w') = search /\
  searchTerm (st w') = searchTerm (st w) /\
  requests w' = requests w ++ [searchParams 1 search] /\
  currentPageState (st w') = VNum 1 /\
  clock w' = clock w.
Proof.
  intros H Hne. unfold timerCallback.
  apply String.eqb_neq in Hne. rewrite Hne. cbn [negb].
  rewrite initialLoadEffect_loaded.
  - unfold searchFetchEffect, debounceEffect, debounceCleanup.
    cbn [effectTimer setIsSearching setDebouncedSearchTerm withState].
    destruct (effectTimer w);
      destruct (negb (searchTerm _ =? debouncedSearchTerm _));
      cbn; rewrite H; cbn; repeat split.
  - unfold debounceEffect, debounceCleanup.
    cbn [effectTimer setIsSearching setDebouncedSearchTerm withState].
    destruct (effectTimer w);
      destruct (negb (searchTerm _ =? debouncedSearchTerm _)); exact H.
Qed.

Lemma timerCallback_committed search w :
  debouncedSearchTerm (st (timerCallback search w)) = search.
Proof.
  unfold timerCallback.
  destruct (negb (search =? debouncedSearchTerm (st w))); [|reflexivity].
  unfold searchFetchEffect, initialLoadEffect, debounceEffect, debounceCleanup.
  cbn [effectTimer setIsSearching setDebouncedSearchTerm withState].
  destruct (effectTimer w);
  repeat match goal with
         | |- context [if ?b then _ else _] => destruct b
         end; reflexivity.
Qed.

End Startup.

(** C1 fails on the code.  At program start the initial-load effect sends
    the request for page 1 with no search term and sets the ref; the
    search effect of the same commit then finds the ref set and sends the
    same request again.  Nothing more is sent when the first debounce
    timer fires. *)
Theorem mount_fetches_twice :
  requests (initialLoadEffect (debounceEffect initialWorld))
  = [searchParams 1 ""] /\
  hasInitialLoaded (initialLoadEffect (debounceEffect initialWorld)) = true /\
  requests mount = [searchParams 1 ""; searchParams 1 ""] /\
  requests (advance 500 mount) = requests mount /\
  requests mount
  = [ [("page", "1"); ("limit", "10")]; [("page", "1"); ("limit", "10")] ].
Proof. vm_compute. repeat split. Qed.

(* ===================================================================== *)
(** ** CSV export *)
(* ===================================================================== *)

Section CsvExport.

Lemma app_assoc_string (a b c : string) :
  ((a ++ b) ++ c = a ++ (b ++ c))%string.
Proof. induction a as [|x a IH]; cbn; [reflexivity | now rewrite IH]. Qed.

Lemma length_app_string (a b : string) :
  String.length (a ++ b)%string = String.length a + String.length b.
Proof. induction a as [|x a IH]; cbn; [reflexivity | now rewrite IH]. Qed.

Lemma escape_step (a : ascii) (s : string) :
  escapeQuotes (String a s) =
  if Ascii.eqb a dq then String dq (String dq (escapeQuotes s))
  else String a (escapeQuotes s).
Proof. unfold escapeQuotes. cbn [replaceAll]. destruct (Ascii.eqb a dq); reflexivity. Qed.

(** Reading the escaped message back gives the message. *)
Lemma undouble_escape (m : string) : undouble (escapeQuotes m) = m.
Proof.
  induction m as [|a m IH]; [reflexivity|].
  rewrite escape_step. destruct (Ascii.eqb_spec a dq) as [->|Hne].
  - cbn. rewrite IH. reflexivity.
  - cbn [undouble]. destruct (escapeQuotes m) as [|b e] eqn:E.
    + cbn in IH. rewrite <- IH. reflexivity.
    + apply Ascii.eqb_neq in Hne. rewrite Hne. cbn [andb].
      rewrite IH. reflexivity.
Qed.

(** No double quote of the escaped message stands alone. *)
Lemma quotes_paired_escape (m : string) : quotes_paired (escapeQuotes m) = true.
Proof.
  induction m as [|a m IH]; [reflexivity|].
  rewrite escape_step. destruct (Ascii.eqb a dq) eqn:E.
  - cbn. exact IH.
  - cbn [quotes_paired]. rewrite E. exact IH.
Qed.

Lemma count_dq_escape (m : string) :
  count_char dq (escapeQuotes m) = 2 * count_char dq m.
Proof.
  induction m as [|a m IH]; [reflexivity|].
  rewrite escape_step. cbn [count_char]. destruct (Ascii.eqb a dq) eqn:E.
  - cbn [count_char]. rewrite Ascii.eqb_refl, IH. lia.
  - cbn [count_char]. rewrite E, IH. lia.
Qed.


(** Doubling is the only way to write a message so that it reads back
    with every quote paired. *)
Lemma escape_unique (m e : string) :
  quotes_paired e = true -> undouble e = m -> e = escapeQuotes m.
Proof.
  remember (String.length e) as n eqn:Hn.
  revert e m Hn. induction n as [n IH] using lt_wf_ind.
  intros e m Hn Hp Hu. destruct e as [|a e].
  - cbn in Hu. subst m. reflexivity.
  - cbn [quotes_paired] in Hp. destruct (Ascii.eqb_spec a dq) as [->|Hne].
    + destruct e as [|b e]; [discriminate|].
      apply andb_prop in Hp. destruct Hp as [Hb Hp].
      apply Ascii.eqb_eq in Hb. subst b.
      cbn in Hu. subst m. rewrite escape_step, Ascii.eqb_refl.
      f_equal. f_equal.
      apply (IH (String.length e)); [cbn in Hn; lia | reflexivity | exact Hp | reflexivity].
    + assert (Hu' : m = String a (undouble e)).
      { rewrite <- Hu. cbn [undouble]. destruct e as [|b e]; [reflexivity|].
        apply Ascii.eqb_neq in Hne. rewrite Hne. reflexivity. }
      rewrite Hu'. clear Hu Hu'. rewrite escape_step.
      apply Ascii.eqb_neq in Hne. rewrite Hne. f_equal.
      apply (IH (String.length e)); [cbn in Hn; lia | reflexivity | exact Hp | reflexivity].
Qed.

Lemma orElse_company (o : option string) :
  orElse o "" = match o with Some c => c | None => "" end.
Proof.
  destruct o as [c|]; [|reflexivity]. cbn.
  destruct (String.eqb_spec c ""); congruence.
Qed.

Lemma orElse_status (o : option Status) :
  orElse (option_map Status_string o) "new"
  = match o with Some s => Status_string s | None => "new" end.
Proof. destruct o as [[| |]|]; reflexivity. Qed.

Lemma csvRows_nth (inquiries : list Inquiry) (k : nat) (inquiry : Inquiry) :
  nth_error inquiries k = Some inquiry ->
  nth_error (csvRows inquiries) (S k) = Some (csvRow inquiry).
Proof.
  intros H. unfold csvRows. cbn [nth_error].
  apply map_nth_error. exact H.
Qed.

(** *** Columns *)

Lemma quoted_app (s r : string) :
  (quoted s ++ r = String dq (s ++ String dq r))%string.
Proof. unfold quoted. cbn. rewrite app_assoc_string. reflexivity. Qed.







Lemma comma_app (r : string) : ("," ++ r)%string = String comma r.
Proof. reflexivity. Qed.




(** *** The export *)

Example exportToCSV_sample :
  let q := String dq EmptyString in
  exportToCSV [sampleInquiry]
  = String.concat ""
      [ "ID,Name,Email,Company,Subject,Message,Status,Timestamp";
        String lf EmptyString;
        "42,"; q; "Ann"; q; ",ann@example.org,,"; q; "Hello"; q; ",";
        q; "say "; q; q; "hi"; q; q; q; ",new,2024-01-01T00:00:00Z" ].
Proof. reflexivity. Qed.

(** C8. The exported text is a header row followed by one row per
    inquiry of the loaded list, in order.  The row of an inquiry is the
    comma-joined list of its id, its name between double quotes, its
    email, its company or nothing, its subject between double quotes, its
    message between double quotes, its status or [new], and its
    timestamp; the message is written with each of its double quotes
    doubled: the text between the quotes reads back as the message, and
    none of its double quotes stands alone. *)
Theorem export_rows_and_quoting (inquiries : list Inquiry) :
  exists rows : list string,
    exportToCSV inquiries = String.concat (String lf EmptyString) rows /\
    List.length rows = S (List.length inquiries) /\
    forall (k : nat) (inquiry : Inquiry),
      nth_error inquiries k = Some inquiry ->
      exists escaped : string,
        nth_error rows (S k)
        = Some (String.concat ","
                  [ _id inquiry;
                    String dq (name inquiry ++ String dq EmptyString);
                    email inquiry;
                    match company inquiry with Some c => c | None => "" end;
                    String dq (subject inquiry ++ String dq EmptyString);
                    String dq (escaped ++ String dq EmptyString);
                    match status inquiry with
                    | Some s => Status_string s
                    | None => "new"
                    end;
                    timestamp inquiry ]) /\
        undouble escaped = message inquiry /\
        quotes_paired escaped = true /\
        count_char dq escaped = 2 * count_char dq (message inquiry).
Proof.
  exists (csvRows inquiries). split; [reflexivity|]. split.
  - unfold csvRows. cbn [List.length]. rewrite length_map. reflexivity.
  - intros k inquiry Hk. exists (escapeQuotes (message inquiry)).
    split; [|split; [|split]].
    + rewrite (csvRows_nth _ _ _ Hk). unfold csvRow, csvFields.
      rewrite orElse_company, orElse_status. reflexivity.
    + apply undouble_escape.
    + apply quotes_paired_escape.
    + apply count_dq_escape.
Qed.



End CsvExport.

(* ===================================================================== *)
(** ** Every way a request can settle *)
(* ===================================================================== *)

Section Settling.

(** The request of a numbered page is the request of that page read from
    a cell, both when it is sent and when it settles. *)
Lemma fetchInquiries_any_num page search w :
  fetchInquiries_any (VNum page) search w = fetchInquiries page search w.
Proof. reflexivity. Qed.

Lemma settled_any_num page outcome w :
  fetchInquiries_settled_any (VNum page) outcome w
  = fetchInquiries_settled page outcome w.
Proof. reflexivity. Qed.

Lemma truthy_not_nullish v : truthy v = true -> nullish v = false.
Proof. destruct v; cbn; congruence. Qed.

Lemma getProp_not_nullish v k : nullish v = false -> getProp v k = Some (prop v k).
Proof. unfold prop. destruct v; cbn; congruence. Qed.

(** What settling does, by the way the outcome is dealt with. *)
Lemma settled_any_handling page outcome w :
  fetchInquiries_settled_any page outcome w =
  match handling outcome with
  | Redirected => setLoading false (router_push "/admin/login" w)
  | Failed => setLoading false (setError "Failed to load inquiries" w)
  | Adopted result =>
      setLoading false
        (if truthy (prop result "data") && truthy (prop result "pagination")
         then setCurrentPage (prop (prop result "pagination") "currentPage")
                (setPagination (prop result "pagination")
                   (setInquiries (prop result "data") w))
         else setPagination
                (VObj [ ("currentPage", page);
                        ("totalPages", VNum 1);
                        ("totalCount", prop result "length");
                        ("hasNextPage", VBool false);
                        ("hasPreviousPage", VBool false);
                        ("limit", VNum 10) ])
                (setInquiries result w))
  end.
Proof.
  unfold fetchInquiries_settled_any, try_catch_finally, handling.
  destruct outcome as [|status body]; [reflexivity|].
  unfold fetchInquiries_try_any.
  destruct (status =? 401)%Z; [reflexivity|].
  destruct (negb (ok status)); [reflexivity|].
  destruct body as [result|]; [|reflexivity].
  destruct (nullish result) eqn:Hn; [destruct result; try discriminate; reflexivity|].
  cbn [orThrow bind ret].
  rewrite (getProp_not_nullish result "data" Hn). cbn [orThrow bind ret].
  destruct (truthy (prop result "data")) eqn:Hd; cbn [andb].
  - rewrite (getProp_not_nullish result "pagination" Hn). cbn [orThrow bind ret].
    destruct (truthy (prop result "pagination")) eqn:Hp.
    + cbn [orThrow bind ret act].
      rewrite (getProp_not_nullish _ "currentPage" (truthy_not_nullish _ Hp)).
      reflexivity.
    + cbn [act bind]. rewrite (getProp_not_nullish result "length" Hn). reflexivity.
  - cbn [orThrow bind ret]. rewrite Hd. cbn [act bind].
    rewrite (getProp_not_nullish result "length" Hn). reflexivity.
Qed.

End Settling.

Section SettlingFacts.

Lemma error_after_settling page outcome w :
  let w' := fetchInquiries_settled_any page outcome w in
  error (st w') = error (st w) \/ error (st w') = "Failed to load inquiries".
Proof.
  cbn zeta. rewrite settled_any_handling.
  destruct (handling outcome) as [| |result]; [left|right|left]; try reflexivity.
  destruct (truthy (prop result "data") && truthy (prop result "pagination"));
    reflexivity.
Qed.

Lemma error_after_timerCallback search w :
  error (st (timerCallback search w)) = error (st w).
Proof.
  unfold timerCallback, searchFetchEffect, initialLoadEffect, debounceEffect,
    debounceCleanup.
  cbn [effectTimer setIsSearching setDebouncedSearchTerm withState].
  destruct (effectTimer w);
  repeat match goal with
         | |- context [if ?b then _ else _] => destruct b
         end; reflexivity.
Qed.

Lemma error_after_tick w : error (st (tick w)) = error (st w).
Proof.
  apply (tick_preserves (fun w' => error (st w') = error (st w))); auto.
  intros search w0 H. rewrite error_after_timerCallback. exact H.
Qed.

Lemma error_after_step e w :
  error (st (step e w)) = error (st w)
  \/ error (st (step e w)) = "Failed to load inquiries".
Proof.
  destruct e as [|search|page|page outcome]; cbn [step].
  - left. apply error_after_tick.
  - left. unfold handleSearchChange, debounceEffect, debounceCleanup.
    destruct (search =? searchTerm (st w)); [reflexivity|].
    cbn [effectTimer setSearchTerm withState].
    destruct (effectTimer w); destruct (negb _); reflexivity.
  - left. reflexivity.
  - rewrite <- settled_any_num. apply error_after_settling.
Qed.

Lemma error_after_perform a w :
  error (st (perform a w)) = error (st w)
  \/ error (st (perform a w)) = "Failed to load inquiries".
Proof.
  destruct a as [e| |page outcome]; cbn [perform].
  - apply error_after_step.
  - unfold handleRefresh, fetchInquiries_any.
    destruct (toStringOf (currentPageState (st w))); [left|right]; reflexivity.
  - apply error_after_settling.
Qed.

End SettlingFacts.

(** X1. However a request settles -- rejected, redirected, failed,
    adopted -- the loading flag is down afterwards, also when other
    requests are still on their way. *)
Theorem loading_lowered_however_settled
        (page : value) (outcome : FetchOutcome) (w : World) :
  loading (st (fetchInquiries_settled_any page outcome w)) = false.
Proof.
  rewrite settled_any_handling.
  destruct (handling outcome); reflexivity.
Qed.

(** X2. A 2xx response whose body is an object with truthy [data] and
    [pagination]: the list is [data], the pagination is [pagination], and
    the current page is the one the pagination names, not the page that
    was asked for; the error is not touched. *)
Theorem object_with_data_and_pagination_adopted
        (page status : Z) (fields : list (string * value)) (w : World) :
  ok status = true ->
  truthy (lookup "data" fields) = true ->
  truthy (lookup "pagination" fields) = true ->
  let w' := fetchInquiries_settled page (Responded status (Some (VObj fields))) w in
  inquiries (st w') = lookup "data" fields /\
  pagination (st w') = lookup "pagination" fields /\
  currentPageState (st w') = prop (lookup "pagination" fields) "currentPage" /\
  error (st w') = error (st w) /\
  loading (st w') = false.
Proof.
  intros Hok Hd Hp w'. subst w'.
  rewrite <- settled_any_num, settled_any_handling.
  unfold handling. rewrite (ok_not_401 _ Hok), Hok. cbn [negb nullish].
  change (prop (VObj fields) "data") with (lookup "data" fields).
  change (prop (VObj fields) "pagination") with (lookup "pagination" fields).
  rewrite Hd, Hp. repeat split.
Qed.

Lemma object_with_data_and_pagination_adopted_witness :
  let served :=
    {| currentPage := 3; totalPages := 3; totalCount := 25;
       hasNextPage := false; hasPreviousPage := true; limit := 10 |} in
  let body := VObj [("data", VArr []); ("pagination", PaginationInfo_value served)] in
  let w' := fetchInquiries_settled 5 (Responded 200 (Some body)) mount in
  inquiries (st w') = VArr [] /\
  pagination (st w') = PaginationInfo_value served /\
  currentPageState (st w') = VNum 3 /\
  error (st w') = error (st mount) /\
  loading (st w') = false.
Proof.
  intros served body.
  exact (object_with_data_and_pagination_adopted 5 200
           [("data", VArr []); ("pagination", PaginationInfo_value served)]
           mount eq_refl eq_refl eq_refl).
Defined.

(** X3. A 2xx response whose body is the JSON value [null]: reading
    [result.data] throws, so the response ends like a rejected request --
    error set, list and pagination as they were. *)
Theorem null_body_is_a_failure (page status : Z) (w : World) :
  ok status = true ->
  let w' := fetchInquiries_settled page (Responded status (Some VNull)) w in
  w' = fetchInquiries_settled page Rejected w /\
  error (st w') = "Failed to load inquiries" /\
  inquiries (st w') = inquiries (st w) /\
  pagination (st w') = pagination (st w).
Proof.
  intros Hok w'. subst w'.
  rewrite <- !settled_any_num, !settled_any_handling.
  unfold handling. rewrite (ok_not_401 _ Hok), Hok. repeat split.
Qed.

Lemma null_body_is_a_failure_witness :
  let w' := fetchInquiries_settled 1 (Responded 200 (Some VNull)) mount in
  w' = fetchInquiries_settled 1 Rejected mount /\
  error (st w') = "Failed to load inquiries" /\
  inquiries (st w') = inquiries (st mount) /\
  pagination (st w') = pagination (st mount).
Proof. exact (null_body_is_a_failure 1 200 mount eq_refl). Defined.

(** X4. A 2xx response whose body is any other value -- not [null], and
    not an object with truthy [data] and [pagination] -- is stored as the
    list without a check, whatever it is; the total count is its [length]
    property ([undefined] unless it is an array or a string), and no
    error is raised. *)
Theorem other_body_stored_unvalidated
        (page status : Z) (result : value) (w : World) :
  ok status = true ->
  nullish result = false ->
  truthy (prop result "data") && truthy (prop result "pagination") = false ->
  let w' := fetchInquiries_settled page (Responded status (Some result)) w in
  inquiries (st w') = result /\
  pagination (st w')
  = VObj [ ("currentPage", VNum page); ("totalPages", VNum 1);
           ("totalCount", prop result "length");
           ("hasNextPage", VBool false); ("hasPreviousPage", VBool false);
           ("limit", VNum 10) ] /\
  error (st w') = error (st w).
Proof.
  intros Hok Hn Hs w'. subst w'.
  rewrite <- settled_any_num, settled_any_handling.
  unfold handling. rewrite (ok_not_401 _ Hok), Hok. cbn [negb].
  rewrite Hn, Hs. repeat split.
Qed.

Lemma other_body_stored_unvalidated_witness :
  let body := VObj [("error", VStr "quota exceeded")] in
  let w' := fetchInquiries_settled 2 (Responded 200 (Some body)) mount in
  inquiries (st w') = body /\
  pagination (st w')
  = VObj [ ("currentPage", VNum 2); ("totalPages", VNum 1);
           ("totalCount", VUndefined);
           ("hasNextPage", VBool false); ("hasPreviousPage", VBool false);
           ("limit", VNum 10) ] /\
  error (st w') = error (st mount).
Proof.
  intros body.
  exact (other_body_stored_unvalidated 2 200 body mount eq_refl eq_refl eq_refl).
Defined.

(** X5. Once the error page is shown nothing takes it away: no tick, no
    input, no page change, no refresh (the Try Again button) and no
    outcome of any request, a good answer included, empties the error. *)
Theorem error_page_never_hidden (a : Action) (w : World) :
  showsErrorPage w = true -> showsErrorPage (perform a w) = true.
Proof.
  unfold showsErrorPage. intros H.
  destruct (error_after_perform a w) as [E|E]; rewrite E; [exact H | reflexivity].
Qed.

Lemma error_page_never_hidden_witness :
  let failed := perform (SettledAny (VNum 1) Rejected) mount in
  let retried :=
    perform (SettledAny (VNum 1) (Responded 200 (Some (VArr [VNull]))))
            (perform Refresh failed) in
  showsErrorPage failed = true /\
  inquiries (st retried) = VArr [VNull] /\
  showsErrorPage retried = true.
Proof.
  intros failed retried.
  assert (H : showsErrorPage failed = true) by reflexivity.
  split; [exact H|]. split; [reflexivity|].
  apply (error_page_never_hidden (SettledAny (VNum 1) _)).
  apply (error_page_never_hidden Refresh). exact H.
Defined.

Section StoredValues.

Lemma handling_adopted outcome result :
  handling outcome = Adopted result -> nullish result = false.
Proof.
  unfold handling. destruct outcome as [|status body]; [discriminate|].
  destruct (status =? 401)%Z; [discriminate|].
  destruct (negb (ok status)); [discriminate|].
  destruct body as [r|]; [|discriminate].
  destruct (nullish r) eqn:E; [discriminate|].
  intros [= <-]. exact E.
Qed.

Lemma stored_after_settling page outcome w :
  truthy (pagination (st w)) = true ->
  nullish (inquiries (st w)) = false ->
  let w' := fetchInquiries_settled_any page outcome w in
  truthy (pagination (st w')) = true /\ nullish (inquiries (st w')) = false.
Proof.
  intros Hp Hi. cbn zeta. rewrite settled_any_handling.
  destruct (handling outcome) as [| |result] eqn:E; [split; assumption..|].
  apply handling_adopted in E.
  destruct (truthy (prop result "data")) eqn:Hd; cbn [andb].
  - destruct (truthy (prop result "pagination")) eqn:Hpg; cbn.
    + split; [exact Hpg | apply truthy_not_nullish, Hd].
    + split; [reflexivity | exact E].
  - cbn. split; [reflexivity | exact E].
Qed.

Lemma stored_after_timerCallback search w :
  pagination (st (timerCallback search w)) = pagination (st w) /\
  inquiries (st (timerCallback search w)) = inquiries (st w).
Proof.
  unfold timerCallback, searchFetchEffect, initialLoadEffect, debounceEffect,
    debounceCleanup.
  cbn [effectTimer setIsSearching setDebouncedSearchTerm withState].
  destruct (effectTimer w);
  repeat match goal with
         | |- context [if ?b then _ else _] => destruct b
         end; split; reflexivity.
Qed.

Lemma stored_after_tick w :
  pagination (st (tick w)) = pagination (st w) /\
  inquiries (st (tick w)) = inquiries (st w).
Proof.
  apply (tick_preserves
           (fun w' => pagination (st w') = pagination (st w) /\
                      inquiries (st w') = inquiries (st w))); auto.
  intros search w0 [Hp Hi].
  destruct (stored_after_timerCallback search w0) as [-> ->]. auto.
Qed.

Lemma stored_after_perform a w :
  truthy (pagination (st w)) = true ->
  nullish (inquiries (st w)) = false ->
  truthy (pagination (st (perform a w))) = true /\
  nullish (inquiries (st (perform a w))) = false.
Proof.
  intros Hp Hi. destruct a as [[|search|page|page outcome]| |page outcome];
    cbn [perform step].
  - destruct (stored_after_tick w) as [-> ->]. split; assumption.
  - unfold handleSearchChange, debounceEffect, debounceCleanup.
    destruct (search =? searchTerm (st w)); [split; assumption|].
    cbn [effectTimer setSearchTerm withState].
    destruct (effectTimer w); destruct (negb _); split; assumption.
  - split; assumption.
  - rewrite <- settled_any_num. apply stored_after_settling; assumption.
  - unfold handleRefresh, fetchInquiries_any.
    destruct (toStringOf (currentPageState (st w))); split; assumption.
  - apply stored_after_settling; assumption.
Qed.

End StoredValues.

(** X6. In every state the mounted component reaches, the pagination is
    a truthy value and the list is neither [null] nor [undefined] --
    whatever the server sent -- so the reads [pagination.currentPage],
    [pagination.hasNextPage], [inquiries.length] of the render never
    throw. *)
Theorem stored_values_never_nullish (w : World) :
  Attainable w ->
  truthy (pagination (st w)) = true /\
  nullish (inquiries (st w)) = false /\
  forall k : string,
    getProp (pagination (st w)) k <> None /\ getProp (inquiries (st w)) k <> None.
Proof.
  intros H.
  assert (truthy (pagination (st w)) = true /\ nullish (inquiries (st w)) = false)
    as [Hp Hi].
  { induction H as [|a w _ [Hp Hi]]; [split; reflexivity|].
    apply stored_after_perform; assumption. }
  split; [exact Hp|]. split; [exact Hi|].
  intros k. rewrite (getProp_not_nullish _ k (truthy_not_nullish _ Hp)).
  rewrite (getProp_not_nullish _ k Hi). split; discriminate.
Qed.

Lemma stored_values_never_nullish_witness :
  let w := perform (SettledAny (VNum 1) (Responded 200 (Some (VNum 0)))) mount in
  truthy (pagination (st w)) = true /\
  nullish (inquiries (st w)) = false /\
  forall k : string,
    getProp (pagination (st w)) k <> None /\ getProp (inquiries (st w)) k <> None.
Proof.
  intros w.
  exact (stored_values_never_nullish w
           (Attainable_perform (SettledAny (VNum 1) (Responded 200 (Some (VNum 0))))
                               mount Attainable_mount)).
Defined.

(** X7. After a response with [data] and a well-typed [pagination], a
    refresh asks for the page the server named in that pagination --
    with the committed search term -- not for the page that had been
    requested. *)
Theorem refresh_asks_for_served_page
        (page status : Z) (fields : list (string * value))
        (served : PaginationInfo) (w : World) :
  ok status = true ->
  truthy (lookup "data" fields) = true ->
  lookup "pagination" fields = PaginationInfo_value served ->
  let w' := fetchInquiries_settled page (Responded status (Some (VObj fields))) w in
  requests (handleRefresh w')
  = requests w ++ [searchParams (currentPage served) (debouncedSearchTerm (st w))].
Proof.
  intros Hok Hd Hp w'. subst w'.
  rewrite (settled_2xx _ _ _ _ Hok).
  rewrite (settled_shape_A page fields _ _ (VNum (currentPage served)) w
             eq_refl Hd Hp eq_refl eq_refl).
  reflexivity.
Qed.

Lemma refresh_asks_for_served_page_witness :
  let served :=
    {| currentPage := 3; totalPages := 3; totalCount := 25;
       hasNextPage := false; hasPreviousPage := true; limit := 10 |} in
  let body := VObj [("data", VArr []); ("pagination", PaginationInfo_value served)] in
  let w := handlePageChange 5 mount in
  requests (handleRefresh (fetchInquiries_settled 5 (Responded 200 (Some body)) w))
  = requests w ++ [searchParams 3 ""].
Proof.
  intros served body w.
  exact (refresh_asks_for_served_page 5 200
           [("data", VArr []); ("pagination", PaginationInfo_value served)]
           served w eq_refl eq_refl eq_refl).
Defined.

(* ===================================================================== *)
(** ** The debounce machinery over time *)
(* ===================================================================== *)

Section TimeBasics.

Lemma last_after_head {A} (x d : A) (l : list A) :
  last (x :: l) d = last l x.
Proof.
  revert x d. induction l as [|y l IH]; intros x d; [reflexivity|].
  change (last (x :: y :: l) d) with (last (y :: l) d).
  rewrite (IH y d), (IH y x). reflexivity.
Qed.

Lemma elapse_0 w : elapse 0 w = w.
Proof. destruct w. reflexivity. Qed.

Lemma elapse_elapse n m w : elapse n (elapse m w) = elapse (n + m) w.
Proof. unfold elapse. cbn. f_equal. lia. Qed.

Lemma advance_add n m w : advance (n + m) w = advance m (advance n w).
Proof.
  revert w. induction n as [|n IH]; intros w; [reflexivity|].
  cbn [Nat.add advance]. apply IH.
Qed.

Lemma settled_any_same_search page outcome w :
  same_search w (fetchInquiries_settled_any page outcome w).
Proof.
  rewrite settled_any_handling.
  destruct (handling outcome) as [| |result]; try (repeat split).
  all: destruct (truthy (prop result "data") && truthy (prop result "pagination"));
    reflexivity.
Qed.

Lemma handleRefresh_same_search w :
  searchTerm (st (handleRefresh w)) = searchTerm (st w) /\
  debouncedSearchTerm (st (handleRefresh w)) = debouncedSearchTerm (st w) /\
  isSearching (st (handleRefresh w)) = isSearching (st w) /\
  hasInitialLoaded (handleRefresh w) = hasInitialLoaded w /\
  timers (handleRefresh w) = timers w /\
  effectTimer (handleRefresh w) = effectTimer w /\
  clock (handleRefresh w) = clock w.
Proof.
  unfold handleRefresh, fetchInquiries_any.
  destruct (toStringOf (currentPageState (st w))); repeat split.
Qed.

Lemma Attainable_loaded w : Attainable w -> hasInitialLoaded w = true.
Proof.
  induction 1 as [|a w _ IH]; [reflexivity|].
  destruct a as [e| |page outcome]; cbn [perform].
  - apply step_keeps_loaded, IH.
  - destruct (handleRefresh_same_search w) as (_ & _ & _ & -> & _). exact IH.
  - destruct (settled_any_same_search page outcome w) as (_ & _ & _ & -> & _).
    exact IH.
Qed.

Lemma Attainable_advance n w : Attainable w -> Attainable (advance n w).
Proof.
  revert w. induction n as [|n IH]; intros w H; [exact H|].
  cbn [advance]. apply IH. exact (Attainable_perform (Plain Tick) w H).
Qed.

End TimeBasics.

Section Timers.

(** One tick, by what is pending. *)
Lemma tick_idle w : timers w = [] -> tick w = elapse 1 w.
Proof.
  intros Ht. unfold tick. cbn zeta.
  change (timers (advanceClock w)) with (timers w). rewrite Ht. reflexivity.
Qed.

Lemma tick_before_due w t :
  timers w = [t] -> S (clock w) < due t -> tick w = elapse 1 w.
Proof.
  intros Ht Hlt. unfold tick. cbn zeta.
  change (timers (advanceClock w)) with (timers w). rewrite Ht.
  cbn [List.length fireDue].
  change (timers (advanceClock w)) with (timers w). rewrite Ht.
  cbn [find]. change (clock (advanceClock w)) with (S (clock w)).
  destruct (Nat.leb_spec (due t) (S (clock w))) as [Hle|_]; [lia|].
  reflexivity.
Qed.

Lemma tick_due w t :
  timers w = [t] -> due t <= S (clock w) ->
  tick w = timerCallback (captured t) (clearTimeout (timerId t) (elapse 1 w)).
Proof.
  intros Ht Hle. unfold tick. cbn zeta.
  change (timers (advanceClock w)) with (timers w). rewrite Ht.
  cbn [List.length fireDue].
  change (timers (advanceClock w)) with (timers w). rewrite Ht.
  cbn [find]. change (clock (advanceClock w)) with (S (clock w)).
  destruct (Nat.leb_spec (due t) (S (clock w))) as [_|Hgt]; [|lia].
  reflexivity.
Qed.

(** With no timer pending, time alone changes nothing. *)
Lemma advance_idle n w : timers w = [] -> advance n w = elapse n w.
Proof.
  revert w. induction n as [|n IH]; intros w Ht.
  - symmetry. apply elapse_0.
  - cbn [advance]. rewrite (tick_idle w Ht), (IH (elapse 1 w) Ht), elapse_elapse.
    unfold elapse. f_equal. lia.
Qed.

(** Until its one timer is due, a world only grows older. *)
Lemma advance_before_due k w t :
  timers w = [t] -> k + clock w < due t -> advance k w = elapse k w.
Proof.
  revert w. induction k as [|k IH]; intros w Ht Hlt.
  - symmetry. apply elapse_0.
  - cbn [advance]. rewrite (tick_before_due w t Ht) by lia.
    rewrite (IH (elapse 1 w)); [|exact Ht|cbn; lia].
    rewrite elapse_elapse. unfold elapse. f_equal. lia.
Qed.

(** When the quiet period has run, the timer fires. *)
Lemma advance_quiet w t :
  timers w = [t] -> due t = clock w + 500 ->
  advance 500 w = timerCallback (captured t) (clearTimeout (timerId t) (elapse 500 w)).
Proof.
  intros Ht Hd. change 500 with (499 + 1) at 1. rewrite advance_add.
  rewrite (advance_before_due 499 w t Ht) by lia.
  cbn [advance]. rewrite (tick_due (elapse 499 w) t Ht) by (cbn; lia).
  rewrite elapse_elapse. reflexivity.
Qed.

Lemma filter_none {A} (f : A -> bool) (l : list A) :
  (forall x, In x l -> f x = false) -> filter f l = [].
Proof.
  induction l as [|x l IH]; intros H; [reflexivity|].
  cbn [filter]. rewrite (H x (or_introl eq_refl)).
  apply IH. intros y Hy. apply H. right. exact Hy.
Qed.

(** The cleanup clears what is pending, when every pending timer is the
    one it holds. *)
Lemma cleanup_clears w :
  held w -> timers (debounceCleanup w) = [].
Proof.
  unfold held, debounceCleanup. intros H.
  destruct (effectTimer w) as [id|] eqn:E.
  - cbn [timers clearTimeout]. apply filter_none. intros t Ht.
    specialize (H t Ht). injection H as ->. rewrite Nat.eqb_refl. reflexivity.
  - destruct (timers w) as [|t l]; [reflexivity|].
    specialize (H t (or_introl eq_refl)). discriminate.
Qed.

Lemma cleanup_frame w :
  st (debounceCleanup w) = st w /\
  hasInitialLoaded (debounceCleanup w) = hasInitialLoaded w /\
  nextTimerId (debounceCleanup w) = nextTimerId w /\
  clock (debounceCleanup w) = clock w /\
  requests (debounceCleanup w) = requests w.
Proof.
  unfold debounceCleanup. destruct (effectTimer w); repeat split.
Qed.

(** The effect, run where nothing is pending. *)
Lemma debounceEffect_sets w :
  timers w = [] ->
  let w' := debounceEffect w in
  timers w' = [ {| timerId := nextTimerId w; due := clock w + 500;
                   captured := searchTerm (st w) |} ] /\
  effectTimer w' = Some (nextTimerId w) /\
  searchTerm (st w') = searchTerm (st w) /\
  debouncedSearchTerm (st w') = debouncedSearchTerm (st w) /\
  isSearching (st w')
  = (if searchTerm (st w) =? debouncedSearchTerm (st w) then isSearching (st w)
     else true) /\
  hasInitialLoaded w' = hasInitialLoaded w /\
  clock w' = clock w /\
  requests w' = requests w.
Proof.
  intros Ht. unfold debounceEffect.
  destruct (searchTerm (st w) =? debouncedSearchTerm (st w));
    cbn; rewrite Ht; repeat split.
Qed.

Lemma inv_held w : debounce_inv w -> held w.
Proof.
  unfold debounce_inv, held. intros H t Ht.
  destruct (timers w) as [|t1 [|t2 l]]; [destruct Ht| |destruct H].
  destruct Ht as [<-|[]]. apply H.
Qed.

Lemma just_typed_inv search w : just_typed search w -> debounce_inv w.
Proof.
  intros (Hs & id & Ht & He). unfold debounce_inv. rewrite Ht. cbn.
  split; [exact He|]. split; [auto|lia].
Qed.

Lemma handleSearchChange_changed search w :
  held w ->
  search <> searchTerm (st w) ->
  let w' := handleSearchChange search w in
  just_typed search w' /\
  debouncedSearchTerm (st w') = debouncedSearchTerm (st w) /\
  requests w' = requests w /\
  hasInitialLoaded w' = hasInitialLoaded w.
Proof.
  intros Hh Hne. unfold handleSearchChange.
  apply String.eqb_neq in Hne. rewrite Hne.
  set (w1 := setSearchTerm search w).
  assert (Hh1 : held w1) by exact Hh.
  pose proof (cleanup_clears w1 Hh1) as Hc.
  destruct (cleanup_frame w1) as (Fs & Fl & Fn & Fc & Fq).
  destruct (debounceEffect_sets (debounceCleanup w1) Hc)
    as (Et & Ee & Es & Ed & _ & El & Ec & Eq).
  unfold just_typed. rewrite Es, Ed, Eq, El, Ec, Et, Ee, Fs, Fl, Fc, Fq.
  split; [|repeat split].
  split; [reflexivity|]. eexists. split; reflexivity.
Qed.

(** The two fetching effects stay out of the debounce machinery. *)
Lemma fetch_effects_frame w :
  let w' := searchFetchEffect (initialLoadEffect w) in
  searchTerm (st w') = searchTerm (st w) /\
  debouncedSearchTerm (st w') = debouncedSearchTerm (st w) /\
  isSearching (st w') = isSearching (st w) /\
  clock w' = clock w /\
  timers w' = timers w /\
  effectTimer w' = effectTimer w.
Proof.
  unfold searchFetchEffect, initialLoadEffect.
  repeat match goal with
         | |- context [if ?b then _ else _] => destruct b
         end; repeat split.
Qed.

(** The timer callback when the timer carried the raw term and nothing
    else is pending. *)
Lemma timerCallback_raw w :
  timers w = [] ->
  let w' := timerCallback (searchTerm (st w)) w in
  searchTerm (st w') = searchTerm (st w) /\
  debouncedSearchTerm (st w') = searchTerm (st w) /\
  isSearching (st w') = false /\
  clock w' = clock w /\
  (if searchTerm (st w) =? debouncedSearchTerm (st w)
   then timers w' = []
   else timers w' = [ {| timerId := nextTimerId w; due := clock w + 500;
                         captured := searchTerm (st w) |} ] /\
        effectTimer w' = Some (nextTimerId w)).
Proof.
  intros Ht. unfold timerCallback.
  destruct (searchTerm (st w) =? debouncedSearchTerm (st w)) eqn:E; cbn [negb].
  - repeat split. exact Ht.
  - set (w1 := setIsSearching false (setDebouncedSearchTerm (searchTerm (st w)) w)).
    assert (Hh1 : held w1).
    { unfold held. change (timers w1) with (timers w). rewrite Ht.
      intros t []. }
    pose proof (cleanup_clears w1 Hh1) as Hc.
    destruct (cleanup_frame w1) as (Fs & Fl & Fn & Fc & Fq).
    destruct (debounceEffect_sets (debounceCleanup w1) Hc)
      as (Et & Ee & Es & Ed & Ei & El & Ec & Eq).
    rewrite Fs, ?Fn, ?Fc in *.
    change (searchTerm (st w1)) with (searchTerm (st w)) in *.
    change (debouncedSearchTerm (st w1)) with (searchTerm (st w)) in *.
    change (isSearching (st w1)) with false in *.
    change (clock w1) with (clock w) in *.
    change (nextTimerId w1) with (nextTimerId w) in *.
    rewrite String.eqb_refl in Ei.
    destruct (fetch_effects_frame (debounceEffect (debounceCleanup w1)))
      as (Gs & Gd & Gi & Gc & Gt & Ge).
    rewrite Gs, Gd, Gi, Gc, Gt, Ge, Es, Ed, Ei, Ec, Et, Ee. repeat split.
Qed.

Lemma tick_keeps_inv w : debounce_inv w -> debounce_inv (tick w).
Proof.
  intros H. pose proof H as H0. unfold debounce_inv in H.
  destruct (timers w) as [|t [|t2 l]] eqn:Ht; [| |destruct H].
  - rewrite (tick_idle w Ht). unfold debounce_inv.
    change (timers (elapse 1 w)) with (timers w). rewrite Ht. exact H.
  - destruct H as (He & Hc & Hd).
    destruct (Nat.le_gt_cases (due t) (S (clock w))) as [Hle|Hgt].
    + rewrite (tick_due w t Ht Hle).
      set (w0 := clearTimeout (timerId t) (elapse 1 w)).
      assert (Ht0 : timers w0 = []).
      { unfold w0. cbn [timers clearTimeout elapse]. rewrite Ht.
        cbn [filter]. rewrite Nat.eqb_refl. reflexivity. }
      rewrite Hc. change (searchTerm (st w)) with (searchTerm (st w0)).
      pose proof (timerCallback_raw w0 Ht0) as (Hs & Hdb & Hi & Hk & Htm).
      unfold debounce_inv.
      destruct (searchTerm (st w0) =? debouncedSearchTerm (st w0)).
      * rewrite Htm, Hs, Hdb, Hi. auto.
      * destruct Htm as [Htm Hef]. rewrite Htm, Hef, Hs, Hk. cbn.
        split; [reflexivity|]. split; [reflexivity|]. lia.
    + rewrite (tick_before_due w t Ht) by lia. unfold debounce_inv.
      change (timers (elapse 1 w)) with (timers w). rewrite Ht. cbn.
      split; [exact He|]. split; [exact Hc|]. lia.
Qed.

Lemma perform_keeps_inv a w : debounce_inv w -> debounce_inv (perform a w).
Proof.
  intros H. destruct a as [[|search|page|page outcome]| |page outcome];
    cbn [perform step].
  - apply tick_keeps_inv, H.
  - destruct (String.eqb_spec search (searchTerm (st w))) as [Heq|Hne].
    + unfold handleSearchChange. apply String.eqb_eq in Heq. rewrite Heq. exact H.
    + destruct (handleSearchChange_changed search w (inv_held w H) Hne) as [Hj _].
      apply (just_typed_inv search), Hj.
  - exact H.
  - unfold debounce_inv in *.
    destruct (settled_same_search page outcome w)
      as (-> & -> & -> & _ & (-> & _ & ->) & -> & _).
    exact H.
  - unfold debounce_inv in *.
    destruct (handleRefresh_same_search w) as (-> & -> & -> & _ & -> & -> & ->).
    exact H.
  - unfold debounce_inv in *.
    destruct (settled_any_same_search page outcome w)
      as (-> & -> & -> & _ & (-> & _ & ->) & -> & _).
    exact H.
Qed.

Lemma Attainable_inv w : Attainable w -> debounce_inv w.
Proof.
  induction 1 as [|a w _ IH]; [|apply perform_keeps_inv, IH].
  unfold debounce_inv. cbn. split; [reflexivity|]. split; [reflexivity | lia].
Qed.

(** Through a burst nothing is committed and nothing is sent, and the
    last value typed is the one whose timer runs. *)
Lemma keystrokes_burst (ks : list (nat * string)) :
  forall (prev : string) (w : World),
    just_typed prev w ->
    changes prev (map snd ks) ->
    Forall (fun k => fst k < 500) ks ->
    let w' := keystrokes ks w in
    just_typed (last (map snd ks) prev) w' /\
    debouncedSearchTerm (st w') = debouncedSearchTerm (st w) /\
    requests w' = requests w /\
    hasInitialLoaded w' = hasInitialLoaded w.
Proof.
  induction ks as [|[gap search] ks IH]; intros prev w Hj Hc Hg.
  - cbn. auto.
  - cbn [map snd changes] in Hc. destruct Hc as [Hne Hc].
    inversion Hg as [|? ? Hgap Hg']; subst. cbn [fst] in Hgap.
    pose proof (just_typed_inv prev w Hj) as Hinv.
    destruct Hj as (Hs & id & Ht & He).
    cbn [keystrokes].
    rewrite (advance_before_due gap w _ Ht) by (cbn; lia).
    assert (Hh : held (elapse gap w)) by exact (inv_held w Hinv).
    assert (Hne' : search <> searchTerm (st (elapse gap w))).
    { cbn. rewrite Hs. auto. }
    destruct (handleSearchChange_changed search (elapse gap w) Hh Hne')
      as (Hj' & Hd' & Hr' & Hl').
    destruct (IH search _ Hj' Hc Hg') as (Hj'' & Hd'' & Hr'' & Hl'').
    cbn zeta. split; [|split; [|split]].
    + replace (last (map snd ((gap, search) :: ks)) prev)
        with (last (map snd ks) search); [exact Hj''|].
      cbn [map snd]. symmetry. apply last_after_head.
    + rewrite Hd'', Hd'. reflexivity.
    + rewrite Hr'', Hr'. reflexivity.
    + rewrite Hl'', Hl'. reflexivity.
Qed.

Lemma timerCallback_requests search w :
  hasInitialLoaded w = true ->
  requests (timerCallback search w)
  = requests w ++ (if search =? debouncedSearchTerm (st w) then []
                   else [searchParams 1 search]).
Proof.
  intros Hl.
  destruct (String.eqb_spec search (debouncedSearchTerm (st w))) as [Heq|Hne].
  - rewrite (timerCallback_same _ _ Heq), app_nil_r. reflexivity.
  - destruct (timerCallback_changed search w Hl Hne) as (_ & _ & H & _).
    exact H.
Qed.

(** Half a second without input, from a state that keeps the debounce
    invariant. *)
Lemma quiet_period_commits w :
  debounce_inv w -> hasInitialLoaded w = true ->
  let w' := advance 500 w in
  searchTerm (st w') = searchTerm (st w) /\
  debouncedSearchTerm (st w') = searchTerm (st w) /\
  isSearching (st w') = false /\
  requests w'
  = requests w ++ (if searchTerm (st w) =? debouncedSearchTerm (st w) then []
                   else [searchParams 1 (searchTerm (st w))]) /\
  (searchTerm (st w) = debouncedSearchTerm (st w) -> timers w' = []) /\
  (searchTerm (st w) <> debouncedSearchTerm (st w) ->
   currentPageState (st w') = VNum 1).
Proof.
  unfold debounce_inv. intros Hinv Hl.
  destruct (timers w) as [|t [|t2 l]] eqn:Ht; [| |destruct Hinv].
  - destruct Hinv as [Hs Hi]. cbn zeta.
    rewrite (advance_idle 500 w Ht). cbn [elapse st requests timers].
    rewrite Hs, String.eqb_refl, app_nil_r.
    split; [reflexivity|]. split; [reflexivity|]. split; [exact Hi|].
    split; [reflexivity|]. split; [intros _; exact Ht|].
    intros Hne. exfalso. apply Hne. reflexivity.
  - destruct Hinv as (He & Hc & Hdue).
    set (d := due t - clock w - 1).
    cbn zeta. replace 500 with (d + S (499 - d)) by lia.
    rewrite advance_add, (advance_before_due d w t Ht) by lia.
    cbn [advance].
    rewrite (tick_due (elapse d w) t Ht) by (cbn; lia).
    set (w0 := clearTimeout (timerId t) (elapse 1 (elapse d w))).
    assert (Ht0 : timers w0 = []).
    { unfold w0. cbn [timers clearTimeout elapse]. rewrite Ht.
      cbn [filter]. rewrite Nat.eqb_refl. reflexivity. }
    rewrite Hc.
    change (searchTerm (st w)) with (searchTerm (st w0)).
    change (debouncedSearchTerm (st w)) with (debouncedSearchTerm (st w0)).
    change (requests w) with (requests w0).
    pose proof (timerCallback_raw w0 Ht0) as (Hs & Hd & Hi & Hk & Htm).
    pose proof (timerCallback_requests (searchTerm (st w0)) w0 Hl) as Hq.
    set (w1 := timerCallback (searchTerm (st w0)) w0) in *.
    assert (E : advance (499 - d) w1 = elapse (499 - d) w1).
    { destruct (searchTerm (st w0) =? debouncedSearchTerm (st w0)).
      - apply advance_idle. exact Htm.
      - destruct Htm as [Htm _].
        apply (advance_before_due _ _ _ Htm). cbn [due]. rewrite Hk. lia. }
    rewrite E. cbn [elapse st requests timers].
    split; [exact Hs|]. split; [exact Hd|]. split; [exact Hi|].
    split; [exact Hq|]. split.
    + intros Heq. rewrite Heq, String.eqb_refl in Htm. exact Htm.
    + intros Hne.
      destruct (timerCallback_changed (searchTerm (st w0)) w0 Hl Hne)
        as (_ & _ & _ & Hp & _).
      exact Hp.
Qed.

End Timers.

(** C6. In every state the mounted component reaches -- whatever page
    is shown -- anything that changes the committed search term sends
    exactly one request, and that request carries page 1, the limit 10
    and the new term (no [search] parameter when the new term is empty);
    the current page is set to 1. *)
Theorem committed_change_fetches_first_page (w : World) (a : Action) :
  Attainable w ->
  debouncedSearchTerm (st (perform a w)) <> debouncedSearchTerm (st w) ->
  let term := debouncedSearchTerm (st (perform a w)) in
  requests (perform a w)
  = requests w
    ++ [ [("page", "1"); ("limit", "10")]
         ++ (if term =? "" then [] else [("search", term)]) ] /\
  currentPageState (st (perform a w)) = VNum 1.
Proof.
  intros Ha Hne.
  pose proof (Attainable_loaded w Ha) as Hl.
  pose proof (Attainable_inv w Ha) as Hinv.
  destruct a as [[|search|page|page outcome]| |page outcome];
    cbn [perform step] in *.
  - unfold debounce_inv in Hinv.
    destruct (timers w) as [|t [|t2 l]] eqn:Ht; [| |destruct Hinv].
    + exfalso. apply Hne. rewrite (tick_idle w Ht). reflexivity.
    + destruct (Nat.le_gt_cases (due t) (S (clock w))) as [Hle|Hgt].
      * rewrite (tick_due w t Ht Hle) in *.
        set (w0 := clearTimeout (timerId t) (elapse 1 w)) in *.
        destruct (string_dec (captured t) (debouncedSearchTerm (st w0)))
          as [Heq|Hd].
        -- exfalso. apply Hne. rewrite (timerCallback_same _ _ Heq). exact Heq.
        -- destruct (timerCallback_changed (captured t) w0 Hl Hd)
             as (Hc & _ & Hq & Hp & _).
           cbn zeta. rewrite Hc. split; [exact Hq | exact Hp].
      * exfalso. apply Hne. rewrite (tick_before_due w t Ht) by lia. reflexivity.
  - exfalso. apply Hne.
    destruct (String.eqb_spec search (searchTerm (st w))) as [Heq|Hd].
    + unfold handleSearchChange. apply String.eqb_eq in Heq. rewrite Heq.
      reflexivity.
    + destruct (handleSearchChange_changed search w (inv_held w Hinv) Hd)
        as (_ & H & _).
      exact H.
  - exfalso. apply Hne. reflexivity.
  - exfalso. apply Hne.
    destruct (settled_same_search page outcome w) as (_ & H & _). exact H.
  - exfalso. apply Hne.
    destruct (handleRefresh_same_search w) as (_ & H & _). exact H.
  - exfalso. apply Hne.
    destruct (settled_any_same_search page outcome w) as (_ & H & _). exact H.
Qed.

Lemma committed_change_fetches_first_page_witness :
  let w := advance 499 (perform (Plain (Input "a"))
                          (perform (Plain (PageChange 3)) mount)) in
  (currentPageState (st w) = VNum 3 /\
   debouncedSearchTerm (st w) = "" /\
   debouncedSearchTerm (st (perform (Plain Tick) w)) = "a") /\
  let term := debouncedSearchTerm (st (perform (Plain Tick) w)) in
  requests (perform (Plain Tick) w)
  = requests w
    ++ [ [("page", "1"); ("limit", "10")]
         ++ (if term =? "" then [] else [("search", term)]) ] /\
  currentPageState (st (perform (Plain Tick) w)) = VNum 1.
Proof.
  intros w. split; [repeat split; vm_compute; reflexivity|].
  assert (Ha : Attainable w).
  { unfold w. apply Attainable_advance, Attainable_perform, Attainable_perform.
    exact Attainable_mount. }
  assert (Hne : debouncedSearchTerm (st (perform (Plain Tick) w))
                <> debouncedSearchTerm (st w)).
  { vm_compute. discriminate. }
  exact (committed_change_fetches_first_page w (Plain Tick) Ha Hne).
Defined.

(** C7, as stated, fails: type a letter, delete it 100 ms later, and
    wait.  The last value of the burst is the empty string; it is the
    committed term, and no request is ever sent for it -- the only two
    requests are the ones of the mount. *)
Lemma retyped_committed_value_sends_nothing :
  let typed := keystrokes [(0, "a"); (100, "")] mount in
  debouncedSearchTerm (st (advance 500 typed)) = "" /\
  requests (advance 500 typed) = requests mount /\
  requests (advance 5000 typed) = requests mount.
Proof. vm_compute. repeat split. Qed.

(** C7, amended.  Take the mounted component in any state it reaches and
    a burst of input values, each a change of the raw value before it
    and each arriving less than 500 ms after the one before.  Each value
    clears the timer of the value before it, so during the burst, and
    for the 500 ms after its last value, nothing is committed and no
    request is sent.  When those 500 ms have passed the last value is the
    committed term, and one request has been sent for it (page 1, limit
    10, the value) if it differs from the term committed before the
    burst, none if it is that term.  (A prefix of a burst is a burst, so
    this covers every intermediate value.) *)
Theorem burst_commits_last_value
        (w : World) (first : string) (rest : list (nat * string)) :
  Attainable w ->
  changes (searchTerm (st w)) (first :: map snd rest) ->
  Forall (fun k => fst k < 500) rest ->
  let final := last (map snd rest) first in
  let typed := keystrokes rest (handleSearchChange first w) in
  (forall k, k < 500 ->
     debouncedSearchTerm (st (advance k typed)) = debouncedSearchTerm (st w) /\
     requests (advance k typed) = requests w) /\
  debouncedSearchTerm (st (advance 500 typed)) = final /\
  requests (advance 500 typed)
  = requests w
    ++ (if final =? debouncedSearchTerm (st w) then []
        else [ [("page", "1"); ("limit", "10")]
               ++ (if final =? "" then [] else [("search", final)]) ]).
Proof.
  intros Ha [Hne Hc] Hg final typed.
  pose proof (Attainable_loaded w Ha) as Hl.
  pose proof (inv_held w (Attainable_inv w Ha)) as Hh.
  destruct (handleSearchChange_changed first w Hh (not_eq_sym Hne))
    as (Hj1 & Hd1 & Hr1 & Hl1).
  destruct (keystrokes_burst rest first _ Hj1 Hc Hg) as (Hj & Hd & Hq & Hl2).
  fold typed in Hj, Hd, Hq, Hl2. fold final in Hj.
  destruct Hj as (Hs & id & Ht & He).
  assert (Hd' : debouncedSearchTerm (st typed) = debouncedSearchTerm (st w))
    by congruence.
  assert (Hq' : requests typed = requests w) by congruence.
  assert (Hl' : hasInitialLoaded typed = true) by congruence.
  split; [|split].
  - intros k Hk. rewrite (advance_before_due k typed _ Ht) by (cbn; lia).
    cbn [elapse st requests]. auto.
  - rewrite (advance_quiet typed _ Ht eq_refl). apply timerCallback_committed.
  - rewrite (advance_quiet typed _ Ht eq_refl). cbn [captured timerId].
    set (w0 := clearTimeout id (elapse 500 typed)).
    assert (Hd0 : debouncedSearchTerm (st w0) = debouncedSearchTerm (st w))
      by exact Hd'.
    assert (Hq0 : requests w0 = requests w) by exact Hq'.
    destruct (String.eqb_spec final (debouncedSearchTerm (st w))) as [Heq|Hdiff].
    + rewrite timerCallback_same by congruence.
      rewrite app_nil_r. exact Hq0.
    + destruct (timerCallback_changed final w0) as (_ & _ & H & _).
      * exact Hl'.
      * congruence.
      * rewrite H, Hq0. reflexivity.
Qed.

Lemma burst_commits_last_value_witness :
  let w := perform (SettledAny (VNum 1) (Responded 200 (Some (VArr [])))) mount in
  let typed := keystrokes [(120, "ab"); (499, "abc")] (handleSearchChange "a" w) in
  (forall k, k < 500 ->
     debouncedSearchTerm (st (advance k typed)) = "" /\
     requests (advance k typed) = requests mount) /\
  debouncedSearchTerm (st (advance 500 typed)) = "abc" /\
  requests (advance 500 typed)
  = requests mount ++ [[("page", "1"); ("limit", "10"); ("search", "abc")]].
Proof.
  intros w.
  assert (Ha : Attainable w).
  { unfold w. apply Attainable_perform. exact Attainable_mount. }
  assert (Hc : changes (searchTerm (st w)) ("a" :: map snd [(120, "ab"); (499, "abc")])).
  { cbn. repeat split; discriminate. }
  assert (Hg : Forall (fun k : nat * string => fst k < 500) [(120, "ab"); (499, "abc")]).
  { repeat constructor; cbn; lia. }
  exact (burst_commits_last_value w "a" [(120, "ab"); (499, "abc")] Ha Hc Hg).
Defined.

(** X8. In every state the mounted component reaches at most one timer
    is pending, because the cleanup of the debounce effect clears the
    timer of its last run before the effect sets the next.  The pending
    timer is the one the cleanup holds, it carries the current raw
    search term and it is due within 500 ms; when no timer is pending
    the raw and the committed term are equal and the searching flag is
    off.  So the two terms differ, and the spinner shows, only while a
    timer runs. *)
Theorem debounce_invariant (w : World) :
  Attainable w ->
  List.length (timers w) <= 1 /\
  (forall t : Timer,
     In t (timers w) ->
     effectTimer w = Some (timerId t) /\
     captured t = searchTerm (st w) /\ clock w < due t <= clock w + 500) /\
  (timers w = [] ->
     searchTerm (st w) = debouncedSearchTerm (st w) /\ isSearching (st w) = false) /\
  (isSearching (st w) = true -> timers w <> []) /\
  (searchTerm (st w) <> debouncedSearchTerm (st w) -> timers w <> []).
Proof.
  intros H. apply Attainable_inv in H. unfold debounce_inv in H.
  destruct (timers w) as [|t [|t2 l]]; [| |destruct H].
  - destruct H as [Hs Hi]. split; [cbn; lia|]. split; [intros t []|].
    split; [auto|]. split.
    + intros Hi'. congruence.
    + intros Hne. contradiction.
  - split; [cbn; lia|]. split.
    + intros t' [<-|[]]. exact H.
    + split; [discriminate|]. split; discriminate.
Qed.

Lemma debounce_invariant_witness :
  let w := advance 120 (perform (Plain (Input "inv")) mount) in
  List.length (timers w) <= 1 /\
  (forall t : Timer,
     In t (timers w) ->
     effectTimer w = Some (timerId t) /\
     captured t = searchTerm (st w) /\ clock w < due t <= clock w + 500) /\
  (timers w = [] ->
     searchTerm (st w) = debouncedSearchTerm (st w) /\ isSearching (st w) = false) /\
  (isSearching (st w) = true -> timers w <> []) /\
  (searchTerm (st w) <> debouncedSearchTerm (st w) -> timers w <> []).
Proof.
  intros w.
  assert (H : Attainable w).
  { unfold w. apply Attainable_advance, Attainable_perform.
    exact Attainable_mount. }
  exact (debounce_invariant w H).
Defined.

(** X9. From any state the mounted component reaches, 500 ms without
    input are enough: the committed term is then the raw term, the
    searching flag is off, and in those 500 ms exactly one request was
    sent (page 1, limit 10, the raw term) if the two terms differed,
    none if they agreed -- no timer of an earlier value is left to fire. *)
Theorem quiet_period_catches_up (w : World) :
  Attainable w ->
  let w' := advance 500 w in
  let raw := searchTerm (st w) in
  searchTerm (st w') = raw /\
  debouncedSearchTerm (st w') = raw /\
  isSearching (st w') = false /\
  requests w'
  = requests w
    ++ (if raw =? debouncedSearchTerm (st w) then []
        else [ [("page", "1"); ("limit", "10")]
               ++ (if raw =? "" then [] else [("search", raw)]) ]).
Proof.
  intros H.
  destruct (quiet_period_commits w (Attainable_inv w H) (Attainable_loaded w H))
    as (H1 & H2 & H3 & H4 & _ & _).
  cbn zeta. auto.
Qed.

Lemma quiet_period_catches_up_witness :
  let w := advance 300 (perform (Plain (Input "late")) (advance 450 mount)) in
  (searchTerm (st w) = "late" /\ debouncedSearchTerm (st w) = "") /\
  let w' := advance 500 w in
  let raw := searchTerm (st w) in
  searchTerm (st w') = raw /\
  debouncedSearchTerm (st w') = raw /\
  isSearching (st w') = false /\
  requests w'
  = requests w
    ++ (if raw =? debouncedSearchTerm (st w) then []
        else [ [("page", "1"); ("limit", "10")]
               ++ (if raw =? "" then [] else [("search", raw)]) ]).
Proof.
  intros w. split; [split; vm_compute; reflexivity|].
  assert (H : Attainable w).
  { unfold w. apply Attainable_advance, Attainable_perform, Attainable_advance.
    exact Attainable_mount. }
  exact (quiet_period_catches_up w H).
Defined.

(** X10. From any state the mounted component reaches, one second
    without input leaves no timer pending, and from then on time alone
    changes nothing but the clock: the page does not poll. *)
Theorem idle_after_a_second (w : World) :
  Attainable w ->
  timers (advance 1000 w) = [] /\
  forall n : nat, advance n (advance 1000 w) = elapse n (advance 1000 w).
Proof.
  intros H.
  assert (Ht : timers (advance 1000 w) = []).
  { change 1000 with (500 + 500). rewrite advance_add.
    pose proof (Attainable_advance 500 w H) as H5.
    destruct (quiet_period_commits w (Attainable_inv w H) (Attainable_loaded w H))
      as (Hs & Hd & _).
    destruct (quiet_period_commits _ (Attainable_inv _ H5) (Attainable_loaded _ H5))
      as (_ & _ & _ & _ & Hn & _).
    apply Hn. congruence. }
  split; [exact Ht|]. intros n. apply advance_idle, Ht.
Qed.

Lemma idle_after_a_second_witness :
  let w := perform (Plain (Input "x")) mount in
  timers (advance 1000 w) = [] /\
  forall n : nat, advance n (advance 1000 w) = elapse n (advance 1000 w).
Proof.
  intros w.
  assert (H : Attainable w).
  { unfold w. apply Attainable_perform. exact Attainable_mount. }
  exact (idle_after_a_second w H).
Defined.

(** X19. A page change made while typed text waits to be committed is
    sent with the old committed term, and does not last: when the quiet
    period has passed the new term is committed, a request for page 1
    with the new term follows, and the current page is 1 again. *)
Theorem page_change_while_typing (page : Z) (w : World) :
  Attainable w ->
  searchTerm (st w) <> debouncedSearchTerm (st w) ->
  let w1 := handlePageChange page w in
  let w2 := advance 500 w1 in
  let old := debouncedSearchTerm (st w) in
  let typed := searchTerm (st w) in
  requests w1 = requests w ++ [searchParams page old] /\
  requests w1
  = requests w
    ++ [ [("page", numToString page); ("limit", "10")]
         ++ (if old =? "" then [] else [("search", old)]) ] /\
  currentPageState (st w1) = VNum page /\
  requests w2 = requests w1 ++ [searchParams 1 typed] /\
  requests w2
  = requests w1
    ++ [ [("page", "1"); ("limit", "10")]
         ++ (if typed =? "" then [] else [("search", typed)]) ] /\
  debouncedSearchTerm (st w2) = typed /\
  currentPageState (st w2) = VNum 1.
Proof.
  intros H Hne w1 w2 old typed.
  assert (H1 : Attainable w1)
    by exact (Attainable_perform (Plain (PageChange page)) w H).
  destruct (quiet_period_commits w1 (Attainable_inv w1 H1) (Attainable_loaded w1 H1))
    as (_ & Hd & _ & Hq & _ & Hp).
  fold w2 in Hd, Hq, Hp.
  change (searchTerm (st w1)) with typed in *.
  change (debouncedSearchTerm (st w1)) with old in *.
  assert (Hne' : typed <> old) by exact Hne.
  apply String.eqb_neq in Hne'. rewrite Hne' in Hq. apply String.eqb_neq in Hne'.
  split; [reflexivity|]. split; [reflexivity|]. split; [reflexivity|].
  split; [exact Hq|]. split; [exact Hq|]. split; [exact Hd|]. exact (Hp Hne').
Qed.

Lemma page_change_while_typing_witness :
  let w := advance 200 (perform (Plain (Input "abc")) mount) in
  let w1 := handlePageChange 4 w in
  let w2 := advance 500 w1 in
  let old := debouncedSearchTerm (st w) in
  let typed := searchTerm (st w) in
  requests w1 = requests w ++ [searchParams 4 old] /\
  requests w1
  = requests w
    ++ [ [("page", numToString 4); ("limit", "10")]
         ++ (if old =? "" then [] else [("search", old)]) ] /\
  currentPageState (st w1) = VNum 4 /\
  requests w2 = requests w1 ++ [searchParams 1 typed] /\
  requests w2
  = requests w1
    ++ [ [("page", "1"); ("limit", "10")]
         ++ (if typed =? "" then [] else [("search", typed)]) ] /\
  debouncedSearchTerm (st w2) = typed /\
  currentPageState (st w2) = VNum 1.
Proof.
  intros w.
  assert (H : Attainable w).
  { unfold w. apply Attainable_advance, Attainable_perform.
    exact Attainable_mount. }
  assert (Hne : searchTerm (st w) <> debouncedSearchTerm (st w)).
  { vm_compute. discriminate. }
  exact (page_change_while_typing 4 w H Hne).
Defined.

(** X20. A response whose [pagination] is truthy but names no current
    page leaves [undefined] in the current-page cell.  A refresh then
    fails on [page.toString()] before anything is sent: no request, the
    error page, the loading flag down. *)
Theorem refresh_without_current_page
        (page status : Z) (fields : list (string * value)) (w : World) :
  ok status = true ->
  truthy (lookup "data" fields) = true ->
  truthy (lookup "pagination" fields) = true ->
  nullish (prop (lookup "pagination" fields) "currentPage") = true ->
  let w' := fetchInquiries_settled page (Responded status (Some (VObj fields))) w in
  requests (handleRefresh w') = requests w /\
  showsErrorPage (handleRefresh w') = true /\
  loading (st (handleRefresh w')) = false.
Proof.
  intros Hok Hd Hp Hn w'. subst w'.
  rewrite <- settled_any_num, settled_any_handling.
  unfold handling. rewrite (ok_not_401 _ Hok), Hok. cbn [negb nullish].
  change (prop (VObj fields) "data") with (lookup "data" fields).
  change (prop (VObj fields) "pagination") with (lookup "pagination" fields).
  rewrite Hd, Hp. cbn [andb].
  unfold handleRefresh, fetchInquiries_any.
  cbn [st currentPageState setLoading setCurrentPage setPagination setInquiries
       withState].
  destruct (prop (lookup "pagination" fields) "currentPage");
    try discriminate; repeat split.
Qed.

Lemma refresh_without_current_page_witness :
  let body :=
    VObj [("data", VArr []); ("pagination", VObj [("totalPages", VNum 3)])] in
  let w' := fetchInquiries_settled 1 (Responded 200 (Some body)) mount in
  requests (handleRefresh w') = requests mount /\
  showsErrorPage (handleRefresh w') = true /\
  loading (st (handleRefresh w')) = false.
Proof.
  intros body.
  exact (refresh_without_current_page 1 200
           [("data", VArr []); ("pagination", VObj [("totalPages", VNum 3)])]
           mount eq_refl eq_refl eq_refl eq_refl).
Defined.

(* ===================================================================== *)
(** ** Requests and the pagination bar *)
(* ===================================================================== *)

Section Requests.

Lemma numToString_inj (a b : Z) : numToString a = numToString b -> a = b.
Proof.
  unfold numToString. intros H.
  apply DecimalZ.to_int_inj.
  pose proof (NilEmpty.isi (Z.to_int a)) as Ha.
  pose proof (NilEmpty.isi (Z.to_int b)) as Hb.
  rewrite H in Ha. congruence.
Qed.

End Requests.

(** X11. A request tells its page and its term apart from every other:
    two calls send the same parameters only for the same page and the
    same search term.  The [search] parameter is there exactly when the
    term is not empty, and [limit] is always 10. *)
Theorem searchParams_determines_request (page page' : Z) (search search' : string) :
  (searchParams page search = searchParams page' search' ->
   page = page' /\ search = search') /\
  (search = "" <-> forall v, ~ In ("search", v) (searchParams page search)) /\
  In ("limit", "10") (searchParams page search).
Proof.
  unfold searchParams. split; [|split].
  - intros H. injection H as Hp Hs. split; [apply numToString_inj, Hp|].
    destruct (String.eqb_spec search ""), (String.eqb_spec search' "");
      try congruence; discriminate.
  - destruct (String.eqb_spec search "") as [->|Hne]; split.
    + intros _ v [H|[H|[]]]; discriminate.
    + reflexivity.
    + contradiction.
    + intros H. exfalso. apply (H search). cbn. auto.
  - cbn. auto.
Qed.

(** X12. The caption of the pagination bar.  For a page that holds at
    least one record (limit positive, current page at least 1, and more
    records in total than the pages before it hold) the caption names a
    range inside [1 .. totalCount], of as many records as the page can
    hold: [limit] of them, or what is left on the last page. *)
Theorem caption_range (p : PaginationInfo) :
  (0 < limit p)%Z -> (1 <= currentPage p)%Z ->
  ((currentPage p - 1) * limit p < totalCount p)%Z ->
  (1 <= showingFrom p <= showingTo p)%Z /\
  (showingTo p <= totalCount p)%Z /\
  (showingTo p - showingFrom p + 1
   = Z.min (limit p) (totalCount p - (currentPage p - 1) * limit p))%Z.
Proof.
  unfold showingFrom, showingTo. intros Hl Hc Ht. nia.
Qed.

Lemma caption_range_witness :
  let p := {| currentPage := 3; totalPages := 3; totalCount := 25;
              hasNextPage := false; hasPreviousPage := true; limit := 10 |} in
  (1 <= showingFrom p <= showingTo p)%Z /\
  (showingTo p <= totalCount p)%Z /\
  (showingTo p - showingFrom p + 1
   = Z.min (limit p) (totalCount p - (currentPage p - 1) * limit p))%Z.
Proof.
  intros p. apply (caption_range p); cbn; lia.
Defined.

(** X13. With a consistent pagination whose current page lies in
    [1 .. totalPages], a button of the bar that is not disabled asks for
    a page in that range, other than the current one: one request, with
    the committed search term. *)
Theorem enabled_button_stays_in_range (b : NavButton) (p : PaginationInfo) (w : World) :
  hasPrevious_consistent p -> hasNext_consistent p ->
  (1 <= currentPage p <= totalPages p)%Z ->
  navDisabled b p = false ->
  (1 <= navTarget b p <= totalPages p)%Z /\
  navTarget b p <> currentPage p /\
  requests (clickNav b p w)
  = requests w ++ [searchParams (navTarget b p) (debouncedSearchTerm (st w))] /\
  currentPageState (st (clickNav b p w)) = VNum (navTarget b p) /\
  requests (clickNav b p w)
  = requests w
    ++ [ [("page", numToString (navTarget b p)); ("limit", "10")]
         ++ (if debouncedSearchTerm (st w) =? "" then []
             else [("search", debouncedSearchTerm (st w))]) ].
Proof.
  unfold hasPrevious_consistent, hasNext_consistent, clickNav.
  intros Hp Hn Hr Hd. rewrite Hd.
  destruct b; cbn [navDisabled navTarget] in *;
    apply negb_false_iff in Hd;
    (apply Hp in Hd || apply Hn in Hd);
    (split; [lia|]); (split; [lia|]); repeat split.
Qed.

Lemma enabled_button_stays_in_range_witness :
  let p := {| currentPage := 2; totalPages := 3; totalCount := 25;
              hasNextPage := true; hasPreviousPage := true; limit := 10 |} in
  (1 <= navTarget NextPage p <= totalPages p)%Z /\
  navTarget NextPage p <> currentPage p /\
  requests (clickNav NextPage p mount)
  = requests mount ++ [searchParams (navTarget NextPage p) (debouncedSearchTerm (st mount))] /\
  currentPageState (st (clickNav NextPage p mount)) = VNum (navTarget NextPage p) /\
  requests (clickNav NextPage p mount)
  = requests mount
    ++ [ [("page", numToString (navTarget NextPage p)); ("limit", "10")]
         ++ (if debouncedSearchTerm (st mount) =? "" then []
             else [("search", debouncedSearchTerm (st mount))]) ].
Proof.
  intros p.
  apply (enabled_button_stays_in_range NextPage p mount).
  - unfold hasPrevious_consistent. cbn. split; [lia | reflexivity].
  - unfold hasNext_consistent. cbn. split; [lia | reflexivity].
  - cbn. lia.
  - reflexivity.
Defined.

(** X14. After a bare-array response the bar cannot navigate: the
    pagination put in place disables all four buttons, whatever page was
    asked for.  (On page 3 the bar reads page 3 of 1 and offers no way
    back.) *)
Theorem bare_array_disables_navigation
        (page status : Z) (elems : list value) (w : World) :
  ok status = true ->
  let w' := fetchInquiries_settled page (Responded status (Some (VArr elems))) w in
  exists p : PaginationInfo,
    pagination (st w') = PaginationInfo_value p /\
    currentPage p = page /\ totalPages p = 1%Z /\
    forall b : NavButton, navDisabled b p = true /\ clickNav b p w' = w'.
Proof.
  intros Hok w'. subst w'.
  rewrite (settled_2xx _ _ _ _ Hok), settled_shape_B.
  eexists. split; [reflexivity|]. split; [reflexivity|]. split; [reflexivity|].
  intros b. destruct b; split; reflexivity.
Qed.

Lemma bare_array_disables_navigation_witness :
  let w' := fetchInquiries_settled 3 (Responded 200 (Some (VArr [VNull]))) mount in
  exists p : PaginationInfo,
    pagination (st w') = PaginationInfo_value p /\
    currentPage p = 3%Z /\ totalPages p = 1%Z /\
    forall b : NavButton, navDisabled b p = true /\ clickNav b p w' = w'.
Proof.
  exact (bare_array_disables_navigation 3 200 [VNull] mount eq_refl).
Defined.

(* ===================================================================== *)
(** ** Mail links *)
(* ===================================================================== *)

Section MailLinks.

Lemma count_char_app (c : ascii) (a b : string) :
  count_char c (a ++ b) = count_char c a + count_char c b.
Proof.
  induction a as [|x a IH]; [reflexivity|].
  cbn [append count_char]. rewrite IH. lia.
Qed.

Lemma nat_of_ascii_bound (a : ascii) : nat_of_ascii a < 256.
Proof.
  destruct a as [[] [] [] [] [] [] [] []]; vm_compute; lia.
Qed.

Lemma hexDigit_unreserved (n : nat) : n < 16 -> unreserved (hexDigit n) = true.
Proof.
  intros H. do 16 (destruct n as [|n]; [reflexivity|]). lia.
Qed.

Lemma hexValue_hexDigit (n : nat) : n < 16 -> hexValue (hexDigit n) = Some n.
Proof.
  intros H. do 16 (destruct n as [|n]; [reflexivity|]). lia.
Qed.

Lemma unreserved_differs (a x : ascii) :
  unreserved a = true -> unreserved x = false -> Ascii.eqb a x = false.
Proof.
  intros Ha Hx. apply Ascii.eqb_neq. intros ->. congruence.
Qed.

(** The encoded text holds unreserved characters and percent signs,
    nothing else. *)
Lemma count_char_encoded (x : ascii) (s : string) :
  unreserved x = false -> x <> percent ->
  count_char x (encodeURIComponent s) = 0.
Proof.
  intros Hx Hp. induction s as [|a s IH]; [reflexivity|].
  cbn [encodeURIComponent]. destruct (unreserved a) eqn:Ha.
  - cbn [count_char]. rewrite (unreserved_differs a x Ha Hx), IH. reflexivity.
  - pose proof (nat_of_ascii_bound a) as Hb.
    cbn [count_char].
    assert (E : Ascii.eqb percent x = false)
      by (apply Ascii.eqb_neq; congruence).
    rewrite E.
    rewrite (unreserved_differs (hexDigit (nat_of_ascii a / 16)) x)
      by (try apply hexDigit_unreserved; try assumption;
          apply Nat.Div0.div_lt_upper_bound; lia).
    rewrite (unreserved_differs (hexDigit (nat_of_ascii a mod 16)) x)
      by (try apply hexDigit_unreserved; try assumption;
          apply Nat.mod_upper_bound; lia).
    rewrite IH. reflexivity.
Qed.

(** Decoding gives the text back. *)
Lemma percentDecode_encode (s : string) :
  percentDecode (encodeURIComponent s) = Some s.
Proof.
  induction s as [|a s IH]; [reflexivity|].
  cbn [encodeURIComponent]. destruct (unreserved a) eqn:Ha.
  - cbn [percentDecode].
    rewrite (unreserved_differs a percent Ha eq_refl), IH. reflexivity.
  - pose proof (nat_of_ascii_bound a) as Hb.
    cbn [percentDecode]. rewrite Ascii.eqb_refl.
    rewrite hexValue_hexDigit by (apply Nat.Div0.div_lt_upper_bound; lia).
    rewrite hexValue_hexDigit by (apply Nat.mod_upper_bound; lia).
    rewrite IH. rewrite <- Nat.div_mod_eq, ascii_nat_embedding. reflexivity.
Qed.

Lemma link_shape (q b : string) :
  q = "New%20Enquiry" ->
  ("mailto:codematricsitsolution@gmail.com?subject=" ++ q ++ "&body=" ++ b
   = "mailto:codematricsitsolution@gmail.com?subject=New%20Enquiry&body=" ++ b)%string.
Proof. intros ->. reflexivity. Qed.

Lemma subject_encoded : encodeURIComponent "New Enquiry" = "New%20Enquiry".
Proof. vm_compute. reflexivity. Qed.

(** The link of the enquiry form, put together. *)
Lemma enquireHref_split (email : string) :
  enquireHref email
  = ("mailto:codematricsitsolution@gmail.com?subject=New%20Enquiry&body="
     ++ encodeURIComponent
          ("Hello, I would like to enquire. My email is: " ++ email))%string.
Proof.
  unfold enquireHref. apply link_shape. exact subject_encoded.
Qed.

End MailLinks.

(** X15. The link of the enquiry form.  Whatever is typed into the email
    input, the address has one question mark and one ampersand -- the
    text cannot add a parameter or end the address -- its subject is
    New%20Enquiry, and its body decodes to the greeting followed by the
    text as it was typed. *)
Theorem enquire_link_is_well_formed (email : string) :
  count_char "?" (enquireHref email) = 1 /\
  count_char "&" (enquireHref email) = 1 /\
  count_char "#" (enquireHref email) = 0 /\
  count_char " " (enquireHref email) = 0 /\
  exists body : string,
    enquireHref email
    = ("mailto:codematricsitsolution@gmail.com?subject=New%20Enquiry&body="
       ++ body)%string /\
    percentDecode body
    = Some ("Hello, I would like to enquire. My email is: " ++ email)%string.
Proof.
  pose proof (enquireHref_split email) as E.
  assert (C : forall x, unreserved x = false -> x <> percent ->
              count_char x (enquireHref email)
              = count_char x "mailto:codematricsitsolution@gmail.com?subject=New%20Enquiry&body=").
  { intros x Hx Hp. rewrite E, count_char_app, (count_char_encoded x _ Hx Hp). lia. }
  split; [|split; [|split; [|split]]].
  - rewrite C by (reflexivity || discriminate). reflexivity.
  - rewrite C by (reflexivity || discriminate). reflexivity.
  - rewrite C by (reflexivity || discriminate). reflexivity.
  - rewrite C by (reflexivity || discriminate). reflexivity.
  - eexists. split; [exact E | apply percentDecode_encode].
Qed.

(** X16. The reply link of the details dialog is not encoded: the email,
    the subject (twice) and the name are in it as they are.  Each
    ampersand of theirs is one more ampersand of the address, each
    question mark one more question mark, so a subject such as
    [R&D] splits the query where the form's link would not. *)
Theorem reply_link_is_not_encoded (inquiry : Inquiry) :
  count_char "&" (replyHref inquiry)
  = 1 + count_char "&" (email inquiry) + 2 * count_char "&" (subject inquiry)
      + count_char "&" (name inquiry) /\
  count_char "?" (replyHref inquiry)
  = 1 + count_char "?" (email inquiry) + 2 * count_char "?" (subject inquiry)
      + count_char "?" (name inquiry) /\
  String.length (replyHref inquiry)
  = 91 + String.length (email inquiry) + 2 * String.length (subject inquiry)
       + String.length (name inquiry).
Proof.
  unfold replyHref. rewrite !count_char_app, !length_app_string.
  cbn [count_char String.length Ascii.eqb Bool.eqb Nat.add]. repeat split; lia.
Qed.

(* ===================================================================== *)
(** ** Reading the export back *)
(* ===================================================================== *)

Section ReadingBack.

Lemma app_nil_r_string (s : string) : (s ++ "")%string = s.
Proof. induction s as [|a s IH]; cbn; [reflexivity | now rewrite IH]. Qed.

Lemma lines_joined (x : string) (rows : list string) :
  String.concat (String lf EmptyString) (x :: rows)
  = (x ++ fold_right (fun r rest => String lf (r ++ rest)) EmptyString rows)%string.
Proof.
  revert x. induction rows as [|y rows IH]; intros x.
  - cbn. symmetry. apply app_nil_r_string.
  - change (String.concat (String lf "") (x :: y :: rows))
      with (x ++ String lf "" ++ String.concat (String lf "") (y :: rows))%string.
    rewrite IH. reflexivity.
Qed.

Lemma fold_right_map_rows (l : list Inquiry) :
  fold_right (fun r rest => String lf (r ++ rest)%string) EmptyString (map csvRow l)
  = linesAfter l.
Proof.
  unfold linesAfter. induction l as [|i l IH]; [reflexivity|].
  cbn [map fold_right]. rewrite IH. reflexivity.
Qed.

(** The export is its header line followed by the lines of the rows. *)
Lemma exportToCSV_lines (l : list Inquiry) :
  exportToCSV l = (String.concat "," headers ++ linesAfter l)%string.
Proof.
  unfold exportToCSV, csvRows. rewrite lines_joined, fold_right_map_rows.
  reflexivity.
Qed.

Lemma linesAfter_app (l1 l2 : list Inquiry) :
  linesAfter (l1 ++ l2) = (linesAfter l1 ++ linesAfter l2)%string.
Proof.
  unfold linesAfter. induction l1 as [|i l1 IH]; [reflexivity|].
  cbn [app fold_right]. rewrite IH. cbn [append].
  rewrite app_assoc_string. reflexivity.
Qed.

End ReadingBack.

(** X17. The export of no inquiry is the header line alone, without a
    line feed; and one more inquiry at the end of the list is one more
    line at the end of the text, the text before it unchanged. *)
Theorem export_grows_by_lines (l : list Inquiry) (inquiry : Inquiry) :
  exportToCSV [] = "ID,Name,Email,Company,Subject,Message,Status,Timestamp" /\
  exportToCSV (l ++ [inquiry])
  = (exportToCSV l ++ String lf (csvRow inquiry))%string.
Proof.
  split; [reflexivity|].
  rewrite !exportToCSV_lines, linesAfter_app, <- app_assoc_string.
  unfold linesAfter at 2. cbn [fold_right]. rewrite app_nil_r_string.
  reflexivity.
Qed.

Section ReaderLemmas.

Lemma snoc_app_string (f : string) (a : ascii) (s : string) :
  ((f ++ String a "") ++ s = f ++ String a s)%string.
Proof. rewrite app_assoc_string. reflexivity. Qed.

Lemma bare_cons (a : ascii) (s : string) :
  bare (String a s) ->
  Ascii.eqb a dq = false /\ Ascii.eqb a comma = false /\ Ascii.eqb a lf = false /\
  bare s.
Proof.
  unfold bare. cbn [count_char].
  destruct (Ascii.eqb a dq), (Ascii.eqb a comma), (Ascii.eqb a lf);
    cbn; intros (H1 & H2 & H3); try discriminate.
  repeat split; assumption.
Qed.

(** A bare field is read as it is. *)
Lemma read_bare (s : string) :
  bare s ->
  forall (f : string) (row : list string) (r : string),
    readCsv false f row (s ++ r) = readCsv false (f ++ s) row r.
Proof.
  induction s as [|a s IH]; intros Hb f row r.
  - cbn [append]. rewrite app_nil_r_string. reflexivity.
  - apply bare_cons in Hb. destruct Hb as (Hq & Hc & Hl & Hb).
    cbn [append readCsv]. rewrite Hq, Hc, Hl.
    rewrite (IH Hb), snoc_app_string. reflexivity.
Qed.

Lemma read_bare_comma (s : string) (row : list string) (r : string) :
  bare s ->
  readCsv false "" row (s ++ String comma r) = readCsv false "" (row ++ [s]) r.
Proof. intros Hb. rewrite (read_bare s Hb). reflexivity. Qed.

(** Inside quotes the escaped text is read as the text. *)
Lemma read_escaped (m : string) :
  forall (f : string) (row : list string) (r : string),
    readCsv true f row (escapeQuotes m ++ String dq (String comma r))
    = readCsv false "" (row ++ [(f ++ m)%string]) r.
Proof.
  induction m as [|a m IH]; intros f row r.
  - cbn. rewrite app_nil_r_string. reflexivity.
  - rewrite escape_step. destruct (Ascii.eqb a dq) eqn:E.
    + apply Ascii.eqb_eq in E. subst a.
      cbn [append readCsv]. rewrite Ascii.eqb_refl.
      rewrite IH, snoc_app_string. reflexivity.
    + cbn [append readCsv]. rewrite E.
      rewrite IH, snoc_app_string. reflexivity.
Qed.

Lemma read_quoted_comma (m : string) (row : list string) (r : string) :
  readCsv false "" row (quoted (escapeQuotes m) ++ String comma r)
  = readCsv false "" (row ++ [m]) r.
Proof.
  rewrite quoted_app. cbn [readCsv].
  change (Ascii.eqb dq comma) with false. change (Ascii.eqb dq lf) with false.
  rewrite Ascii.eqb_refl. apply read_escaped.
Qed.

Lemma escape_plain (s : string) : count_char dq s = 0 -> escapeQuotes s = s.
Proof.
  induction s as [|a s IH]; [reflexivity|].
  rewrite escape_step. cbn [count_char].
  destruct (Ascii.eqb a dq); [discriminate|]. intros H.
  rewrite (IH H). reflexivity.
Qed.

Lemma status_bare (o : option Status) :
  bare (orElse (option_map Status_string o) "new").
Proof. destruct o as [[| |]|]; repeat split. Qed.

(** One row, read from the start of a line. *)
Lemma read_row (inquiry : Inquiry) (r : string) :
  exportable inquiry ->
  readCsv false "" [] (csvRow inquiry ++ r)
  = readCsv false (timestamp inquiry)
      [ _id inquiry; name inquiry; email inquiry; orElse (company inquiry) "";
        subject inquiry; message inquiry;
        orElse (option_map Status_string (status inquiry)) "new" ]
      r.
Proof.
  intros (Hi & He & Hc & Ht & Hn & Hs).
  unfold csvRow, csvFields. cbn [String.concat].
  rewrite <- (escape_plain _ Hn) at 1. rewrite <- (escape_plain _ Hs) at 1.
  rewrite !app_assoc_string, !comma_app.
  rewrite (read_bare_comma _ _ _ Hi), read_quoted_comma.
  rewrite (read_bare_comma _ _ _ He), (read_bare_comma _ _ _ Hc).
  rewrite !read_quoted_comma.
  rewrite (read_bare_comma _ _ _ (status_bare _)).
  rewrite (read_bare _ Ht). reflexivity.
Qed.

Lemma read_lines (l : list Inquiry) :
  Forall exportable l ->
  forall (f : string) (row : list string),
    readCsv false f row (linesAfter l) = (row ++ [f]) :: map exportedFields l.
Proof.
  induction 1 as [|i l Hi _ IH]; intros f row; [reflexivity|].
  unfold linesAfter. cbn [fold_right]. fold (linesAfter l).
  cbn [readCsv]. change (Ascii.eqb lf comma) with false.
  rewrite Ascii.eqb_refl, (read_row i _ Hi), IH. reflexivity.
Qed.

Lemma read_header (r : string) :
  readCsv false "" [] (String.concat "," headers ++ r)
  = readCsv false "Timestamp"
      ["ID"; "Name"; "Email"; "Company"; "Subject"; "Message"; "Status"] r.
Proof. vm_compute. reflexivity. Qed.

End ReaderLemmas.

(** X18. A CSV reader gets back what was exported.  When, in every
    inquiry of the list, the id, the email, the company and the
    timestamp hold no double quote, comma or line feed and the name and
    the subject hold no double quote -- the message may hold anything --
    reading the exported text gives the header row and then, for each
    inquiry in order, its eight fields as they were. *)
Theorem export_reads_back (l : list Inquiry) :
  Forall exportable l ->
  readCsv false "" [] (exportToCSV l) = headers :: map exportedFields l.
Proof.
  intros H. rewrite exportToCSV_lines, read_header, (read_lines l H).
  reflexivity.
Qed.

Lemma export_reads_back_witness :
  let tricky :=
    {| _id := "7"; name := "Lee, Ann"; email := "ann@example.org";
       company := Some "Acme"; subject := "Hi, there";
       message := String dq ("a,b" ++ String dq (String lf "next line, more"));
       timestamp := "2024-01-01"; status := Some replied |} in
  readCsv false "" [] (exportToCSV [sampleInquiry; tricky])
  = headers :: map exportedFields [sampleInquiry; tricky].
Proof.
  intros tricky. apply (export_reads_back [sampleInquiry; tricky]).
  repeat constructor.
Defined.
